(** * check-image.py: registry detection, reference parsing and
      architecture resolution

    A shallow embedding of [src/check-image.py].  Python [str] values are
    Rocq strings (image references are ASCII text), JSON documents decoded
    by [response.json()] are values of [json], and the functions that talk
    to the network or end the process run in a small monad that threads the
    requests issued and the lines printed. *)

From Stdlib Require Import String Ascii List ZArith Bool Arith Lia.
Import ListNotations.
Local Open Scope string_scope.

(** ** Python string primitives *)

Module PyStr.

(** [s.startswith(p)] *)
Fixpoint startswith (s p : string) {struct p} : bool :=
  match p, s with
  | EmptyString, _ => true
  | String _ _, EmptyString => false
  | String a p', String b s' => Ascii.eqb a b && startswith s' p'
  end.

(** [s[n:]] for a non-negative [n] *)
Fixpoint drop (n : nat) (s : string) : string :=
  match n, s with
  | O, _ => s
  | S _, EmptyString => EmptyString
  | S n', String _ s' => drop n' s'
  end.

(** [s.count(c)] for a one-character [c] *)
Fixpoint count (c : ascii) (s : string) : nat :=
  match s with
  | EmptyString => 0
  | String a s' => (if Ascii.eqb a c then 1 else 0) + count c s'
  end.

(** [c in s] for a one-character [c] *)
Fixpoint has_char (c : ascii) (s : string) : bool :=
  match s with
  | EmptyString => false
  | String a s' => Ascii.eqb a c || has_char c s'
  end.

(** [sub in s]: [sub] occurs somewhere in [s] *)
Fixpoint contains (sub s : string) : bool :=
  startswith s sub ||
  match s with
  | EmptyString => false
  | String _ s' => contains sub s'
  end.

(** [s.split(c)[0]]: the text before the first [c], all of [s] without one *)
Fixpoint before (c : ascii) (s : string) : string :=
  match s with
  | EmptyString => EmptyString
  | String a s' => if Ascii.eqb a c then EmptyString else String a (before c s')
  end.

(** the text after the first [c]; with [before], the two parts of
    [s.split(c, 1)] when [c in s] *)
Fixpoint after (c : ascii) (s : string) : string :=
  match s with
  | EmptyString => EmptyString
  | String a s' => if Ascii.eqb a c then s' else after c s'
  end.

(** [str.lower()] on one character of ASCII text: the letters [A]-[Z] go to
    [a]-[z].  Characters outside ASCII, which Python lower-cases by the
    Unicode tables, are left as they are: what is said below about case
    is said of ASCII references. *)
Definition lower_char (a : ascii) : ascii :=
  let n := nat_of_ascii a in
  if ((65 <=? n) && (n <=? 90))%nat then ascii_of_nat (n + 32) else a.

(** [s.lower()] *)
Fixpoint lower (s : string) : string :=
  match s with
  | EmptyString => EmptyString
  | String a s' => String (lower_char a) (lower s')
  end.

End PyStr.
Import PyStr.

(** ** Registry detector and reference parser *)

Definition detect_registry (image : string) : string :=
  if startswith image "ghcr.io/" then "ghcr"
  else if startswith image "quay.io/" then "quay"
  else if startswith image "docker.io/" then "dockerhub"
  else if negb (has_char "/" image) || (count "/" image =? 1)%nat then
    if negb (has_char "." (before "/" image)) then "dockerhub"
    else "unsupported"
  else "unsupported".

Definition parse_image_spec (image registry : string) : string * string :=
  let image :=
    if registry =? "ghcr" then
      if startswith image "ghcr.io/" then drop 8 image else image
    else if registry =? "quay" then
      if startswith image "quay.io/" then drop 8 image else image
    else if registry =? "dockerhub" then
      if startswith image "docker.io/" then drop 10 image else image
    else image in
  let '(repository, tag) :=
    if has_char ":" image then (before ":" image, after ":" image)
    else (image, "latest") in
  let repository :=
    if (registry =? "dockerhub") && negb (has_char "/" repository)
    then "library/" ++ repository
    else repository in
  (lower repository, tag).

(** ** JSON documents as Python sees them *)

(** What [response.json()] returns: [None], [bool], [int], [str], [list]
    or [dict] (a dict is kept as its items, keys distinct, in order).  A
    number with a fraction is not given a constructor of its own: wherever
    this script looks at a number (truth value, iteration, indexing) it
    behaves as an integer does. *)
#[local] Unset Elimination Schemes.
Inductive json : Type :=
| JNull
| JBool (b : bool)
| JNum (n : Z)
| JStr (s : string)
| JArr (items : list json)
| JObj (fields : list (string * json)).
#[local] Set Elimination Schemes.

(** Python exceptions this program can raise and never catches *)
Inductive exn : Type := KeyError | TypeError | AttributeError.

(** A computation returns, calls [sys.exit(code)], or raises. *)
Inductive result (A : Type) : Type :=
| Ret (a : A)
| Exit (code : Z)
| Raise (e : exn).
Arguments Ret {A} a.
Arguments Exit {A} code.
Arguments Raise {A} e.

Definition rbind {A B} (r : result A) (k : A -> result B) : result B :=
  match r with
  | Ret a => k a
  | Exit c => Exit c
  | Raise e => Raise e
  end.

Module Py.

(** [bool(v)] *)
Definition truthy (v : json) : bool :=
  match v with
  | JNull => false
  | JBool b => b
  | JNum n => negb (n =? 0)%Z
  | JStr s => negb (s =? "")
  | JArr l => match l with [] => false | _ => true end
  | JObj d => match d with [] => false | _ => true end
  end.

(** truthiness of a [str] argument whose default is [None] *)
Definition str_truthy (o : option string) : bool :=
  match o with
  | Some s => negb (s =? "")
  | None => false
  end.

(** [os.environ.get(...)] as a Python value *)
Definition of_env (o : option string) : json :=
  match o with
  | Some s => JStr s
  | None => JNull
  end.

Fixpoint lookup (k : string) (d : list (string * json)) : option json :=
  match d with
  | [] => None
  | (k', v) :: d' => if k' =? k then Some v else lookup k d'
  end.

(** [v.get(k, default)]; only a dict has [get] *)
Definition get_or (v : json) (k : string) (default : json) : result json :=
  match v with
  | JObj d => Ret (match lookup k d with Some x => x | None => default end)
  | _ => Raise AttributeError
  end.

(** [v.get(k)] *)
Definition get (v : json) (k : string) : result json := get_or v k JNull.

(** [v[k]] for a string key [k] *)
Definition getitem (v : json) (k : string) : result json :=
  match v with
  | JObj d => match lookup k d with Some x => Ret x | None => Raise KeyError end
  | _ => Raise TypeError
  end.

Definition is_str (s : string) (v : json) : bool :=
  match v with
  | JStr t => t =? s
  | _ => false
  end.

(** [s in v] for a string [s]: key of a dict, substring of a str, element
    of a list *)
Definition str_in (s : string) (v : json) : result bool :=
  match v with
  | JObj d => Ret (match lookup s d with Some _ => true | None => false end)
  | JStr t => Ret (contains s t)
  | JArr l => Ret (existsb (is_str s) l)
  | _ => Raise TypeError
  end.

Fixpoint chars (s : string) : list json :=
  match s with
  | EmptyString => []
  | String a s' => JStr (String a EmptyString) :: chars s'
  end.

(** what [for m in v] ranges over *)
Definition iter (v : json) : result (list json) :=
  match v with
  | JArr l => Ret l
  | JStr s => Ret (chars s)
  | JObj d => Ret (map (fun kv => JStr (fst kv)) d)
  | _ => Raise TypeError
  end.

(** [hash(v)] succeeds *)
Definition hashable (v : json) : bool :=
  match v with
  | JArr _ | JObj _ => false
  | _ => true
  end.

End Py.

(** ** Requests, output and the monad of the script *)

(** An f-string: literal text and formatted values, before rendering. *)
Inductive piece : Type := Lit (s : string) | Fmt (v : json).
Definition fstring := list piece.

Definition TIMEOUT_SECONDS : Z := 10.

(** [requests.get(url, params=..., headers=..., timeout=TIMEOUT_SECONDS)];
    the timeout is the same in every call and is left out of the record *)
Record request : Type := GET {
  url : fstring;
  params : list (string * fstring);
  headers : list (string * fstring)
}.

(** What [requests.get], [raise_for_status] and [json] give together: an
    exception of class [RequestException], or the decoded body. *)
Inductive response : Type :=
| RequestException
| Body (b : json).

Inductive stream : Type := Stdout | Stderr.

(** One constructor per [print] of the script, with the values it formats. *)
Inductive message : Type :=
| AuthTokenFailed
| GhcrAuthTokenFailed
| ManifestFailed
| UnsupportedRegistryType (registry : string)
| UnsupportedRegistry (registry_name : string)
| SupportedRegistries
| IsHelmChart (image label : string)
| IsOciArtifact (image label : string)
| NoArchitecturesFound (image : string)
| SupportsAll (image label : string)
| MissingArchitectures (image label : string) (missing : list string)
| AvailableArchitectures (architectures : list string).

(** The outside of one invocation: the environment variables, and the
    answer of the network to a request given the requests sent before. *)
Record world : Type := World {
  environ : string -> option string;
  http : list request -> request -> response
}.

Record state : Type := State {
  sent : list request;
  printed : list (stream * message)
}.

Definition M (A : Type) : Type := world -> state -> result A * state.

Definition ret {A} (a : A) : M A := fun _ st => (Ret a, st).

Definition bind {A B} (m : M A) (k : A -> M B) : M B :=
  fun w st =>
    match m w st with
    | (Ret a, st') => k a w st'
    | (Exit c, st') => (Exit c, st')
    | (Raise e, st') => (Raise e, st')
    end.

Notation "x <- m ;; k" := (bind m (fun x => k))
  (at level 61, m at next level, right associativity).
Notation "m ;;; k" := (bind m (fun _ => k))
  (at level 61, right associativity).

Definition lift {A} (r : result A) : M A := fun _ st => (r, st).

Definition sys_exit {A} (code : Z) : M A := fun _ st => (Exit code, st).

Definition print (out : stream) (msg : message) : M unit :=
  fun _ st => (Ret tt, State (sent st) (printed st ++ [(out, msg)])).

Definition getenv (name : string) : M json :=
  fun w st => (Ret (Py.of_env (environ w name)), st).

Definition requests_get (req : request) : M response :=
  fun w st => (Ret (http w (sent st) req), State (sent st ++ [req]) (printed st)).

(** ** Auth provider *)

Definition bearer (token : json) : string * fstring :=
  ("Authorization", [Lit "Bearer "; Fmt token]).

Definition pull_scope (repository : string) : string * fstring :=
  ("scope", [Lit "repository:"; Fmt (JStr repository); Lit ":pull"]).

Definition dockerhub_token_request (repository : string) : request :=
  GET [Lit "https://auth.docker.io/token"]
      [("service", [Lit "registry.docker.io"]); pull_scope repository]
      [].

Definition ghcr_token_request (repository : string) : request :=
  GET [Lit "https://ghcr.io/token"] [pull_scope repository] [].

Definition get_dockerhub_auth_token (repository : string) : M json :=
  resp <- requests_get (dockerhub_token_request repository) ;;
  match resp with
  | Body b => lift (Py.getitem b "token")
  | RequestException => print Stderr AuthTokenFailed ;;; sys_exit 1
  end.

Definition get_ghcr_auth_token (repository : string) : M json :=
  user_token <- getenv "GITHUB_TOKEN" ;;
  if Py.truthy user_token then ret user_token
  else
    resp <- requests_get (ghcr_token_request repository) ;;
    match resp with
    | Body b => lift (Py.getitem b "token")
    | RequestException => print Stderr GhcrAuthTokenFailed ;;; sys_exit 1
    end.

Definition get_quay_auth_token : M json :=
  token <- getenv "QUAY_TOKEN" ;;
  ret token.

(** ** Manifest and blob fetchers *)

Definition accept_header : string * fstring :=
  ("Accept",
   [Lit "application/vnd.oci.image.index.v1+json, application/vnd.docker.distribution.manifest.list.v2+json, application/vnd.oci.image.manifest.v1+json, application/vnd.docker.distribution.manifest.v2+json"]).

Definition manifest_url (host repository tag : string) : fstring :=
  [Lit ("https://" ++ host ++ "/v2/"); Fmt (JStr repository);
   Lit "/manifests/"; Fmt (JStr tag)].

Definition blob_url (host repository : string) (digest : json) : fstring :=
  [Lit ("https://" ++ host ++ "/v2/"); Fmt (JStr repository);
   Lit "/blobs/"; Fmt digest].

(** the [try] block shared by the three manifest fetchers *)
Definition fetch_or_exit (req : request) : M json :=
  resp <- requests_get req ;;
  match resp with
  | Body b => ret b
  | RequestException => print Stderr ManifestFailed ;;; sys_exit 1
  end.

Definition get_manifest_dockerhub (repository tag : string) (token : json) : M json :=
  fetch_or_exit
    (GET (manifest_url "registry-1.docker.io" repository tag) []
         [accept_header; bearer token]).

Definition get_manifest_ghcr (repository tag : string) (token : json) : M json :=
  fetch_or_exit
    (GET (manifest_url "ghcr.io" repository tag) [] [accept_header; bearer token]).

Definition get_manifest_quay (repository tag : string) (token : json) : M json :=
  let headers :=
    if Py.truthy token then [accept_header; bearer token] else [accept_header] in
  fetch_or_exit (GET (manifest_url "quay.io" repository tag) [] headers).

(** the request of [get_config_blob], when the registry is one it knows *)
Definition blob_request (registry repository : string) (digest token : json)
  : option request :=
  if registry =? "dockerhub" then
    Some (GET (blob_url "registry-1.docker.io" repository digest) [] [bearer token])
  else if registry =? "ghcr" then
    Some (GET (blob_url "ghcr.io" repository digest) [] [bearer token])
  else if registry =? "quay" then
    Some (GET (blob_url "quay.io" repository digest) []
              (if Py.truthy token then [bearer token] else []))
  else None.

Definition get_config_blob (registry repository : string) (digest token : json)
  : M json :=
  match blob_request registry repository digest token with
  | None => ret (JObj [])
  | Some req =>
      resp <- requests_get req ;;
      match resp with
      | Body b => ret b
      | RequestException => ret (JObj [])
      end
  end.

(** ** Architecture resolver *)

(** [[m['platform']['architecture'] for m in ms if 'platform' in m]] *)
Fixpoint platform_architectures (ms : list json) : result (list json) :=
  match ms with
  | [] => Ret []
  | m :: rest =>
      rbind (Py.str_in "platform" m) (fun keep =>
        if keep then
          rbind (Py.getitem m "platform") (fun p =>
          rbind (Py.getitem p "architecture") (fun a =>
          rbind (platform_architectures rest) (fun archs =>
          Ret (a :: archs))))
        else platform_architectures rest)
  end.

Definition unknown : list json := [JStr "unknown"].

Definition check_architectures (manifest : json) (registry repository : option string)
    (token : json) : M (list json) :=
  manifests <- lift (Py.get manifest "manifests") ;;
  if Py.truthy manifests then
    ms <- lift (Py.iter manifests) ;;
    lift (platform_architectures ms)
  else
    config <- lift (Py.get manifest "config") ;;
    if Py.truthy config then
      config_type <- lift (Py.get_or config "mediaType" (JStr "")) ;;
      helm <- lift (Py.str_in "helm" config_type) ;;
      non_container <-
        (if helm then ret true else lift (Py.str_in "artifact" config_type)) ;;
      if non_container then ret []
      else
        match registry, repository with
        | Some reg, Some repo =>
            if Py.str_truthy registry && Py.str_truthy repository && Py.truthy token
            then
              digest <- lift (Py.get config "digest") ;;
              if Py.truthy digest then
                config_blob <- get_config_blob reg repo digest token ;;
                arch <- lift (Py.get config_blob "architecture") ;;
                if Py.truthy arch then ret [arch] else ret unknown
              else ret unknown
            else ret unknown
        | _, _ => ret unknown
        end
    else ret [].

(** ** The script *)

Definition get_manifest (image registry repository tag : string) : M json :=
  if registry =? "dockerhub" then
    token <- get_dockerhub_auth_token repository ;;
    get_manifest_dockerhub repository tag token
  else if registry =? "ghcr" then
    token <- get_ghcr_auth_token repository ;;
    get_manifest_ghcr repository tag token
  else if registry =? "quay" then
    token <- get_quay_auth_token ;;
    get_manifest_quay repository tag token
  else
    print Stderr (UnsupportedRegistryType registry) ;;; sys_exit 1.

Definition TARGET_ARCHITECTURES : list string := ["amd64"; "arm64"].

(** [registry_labels.get(registry, registry)] *)
Definition registry_label (registry : string) : string :=
  if registry =? "ghcr" then "GHCR"
  else if registry =? "quay" then "Quay.io"
  else if registry =? "dockerhub" then "DockerHub"
  else registry.

(** The value of [TARGET_ARCHITECTURES - set(architectures)] at line 273.
    The line is reached only after line 272 has hashed every architecture
    ([report] raises [TypeError] there for a list or dict), so the
    difference itself cannot raise.  A set has no order of its own: the
    list stands for the set, its targets kept in the order written above. *)
Definition missing_targets (architectures : list json) : list string :=
  filter (fun t => negb (existsb (Py.is_str t) architectures)) TARGET_ARCHITECTURES.

(** [', '.join(l)] needs every item to be a [str] *)
Fixpoint strings (l : list json) : result (list string) :=
  match l with
  | [] => Ret []
  | JStr s :: rest => rbind (strings rest) (fun ss => Ret (s :: ss))
  | _ :: _ => Raise TypeError
  end.

(** lines 258-279: compare with the required set and report *)
Definition report (image registry : string) (manifest : json)
    (architectures : list json) : M unit :=
  let label := registry_label registry in
  match architectures with
  | [] =>
      config <- lift (Py.get_or manifest "config" (JObj [])) ;;
      config_type <- lift (Py.get_or config "mediaType" (JStr "")) ;;
      helm <- lift (Py.str_in "helm" config_type) ;;
      (if helm then print Stderr (IsHelmChart image label)
       else
         artifact <- lift (Py.str_in "artifact" config_type) ;;
         typed <-
           (if artifact then ret true
            else artifact_type <- lift (Py.get manifest "artifactType") ;;
                 ret (Py.truthy artifact_type)) ;;
         if typed then print Stderr (IsOciArtifact image label)
         else print Stderr (NoArchitecturesFound image)) ;;;
      sys_exit 1
  | _ :: _ =>
      if forallb Py.hashable architectures then
        match missing_targets architectures with
        | [] => print Stdout (SupportsAll image label)
        | missing =>
            print Stdout (MissingArchitectures image label missing) ;;;
            available <- lift (strings architectures) ;;
            print Stdout (AvailableArchitectures available)
        end
      else lift (Raise TypeError)
  end.

(** lines 229-256: from the argument to the resolved architectures *)
Definition resolve (image : string) : M (string * json * list json) :=
  let registry := detect_registry image in
  if registry =? "unsupported" then
    let registry_name := if has_char "/" image then before "/" image else image in
    print Stderr (UnsupportedRegistry registry_name) ;;;
    print Stderr SupportedRegistries ;;;
    sys_exit 1
  else
    let '(repository, tag) := parse_image_spec image registry in
    token <-
      (if registry =? "dockerhub" then get_dockerhub_auth_token repository
       else if registry =? "ghcr" then get_ghcr_auth_token repository
       else if registry =? "quay" then get_quay_auth_token
       else ret JNull) ;;
    manifest <- get_manifest image registry repository tag ;;
    architectures <-
      check_architectures manifest (Some registry) (Some repository) token ;;
    ret (registry, manifest, architectures).

(** the body under [if __name__ == "__main__"], for the [image] that
    [parse_args] hands over *)
Definition main (image : string) : M unit :=
  r <- resolve image ;;
  let '(registry, manifest, architectures) := r in
  report image registry manifest architectures.

(** exit status of the process: 0 when the script runs to its end, the
    argument of [sys.exit], 1 after an uncaught exception *)
Definition exit_status {A} (r : result A) : Z :=
  match r with
  | Ret _ => 0
  | Exit code => code
  | Raise _ => 1
  end.

Definition start : state := State [] [].

Definition run (image : string) (w : world) : result unit * state :=
  main image w start.

(** * Vocabulary of the specification *)

(** Notions the statements below are written with, and the sample inputs
    they are tried on. *)

Definition has_prefix (p s : string) : Prop := exists rest, s = p ++ rest.

Definition occurs (c : ascii) (s : string) : Prop :=
  exists l r, s = l ++ String c r.

Definition known_prefix (image : string) : Prop :=
  has_prefix "ghcr.io/" image \/ has_prefix "quay.io/" image \/
  has_prefix "docker.io/" image.

(** [seg] is the segment of [image] before its first ['/'] (all of it
    when there is none) *)
Definition first_segment (image seg : string) : Prop :=
  ~ occurs "/" seg /\
  (image = seg \/ exists rest, image = seg ++ String "/" rest).

Definition no_slash (image : string) : Prop := ~ occurs "/" image.

Definition one_slash (image : string) : Prop :=
  exists l r, image = l ++ String "/" r /\ ~ occurs "/" l /\ ~ occurs "/" r.

(** rule 4 of the detector *)
Definition dockerhub_name (image : string) : Prop :=
  (no_slash image \/ one_slash image) /\
  forall seg, first_segment image seg -> ~ occurs "." seg.

(** the literal host prefix of each supported registry *)
Inductive host_of : string -> string -> Prop :=
| host_ghcr : host_of "ghcr" "ghcr.io/"
| host_quay : host_of "quay" "quay.io/"
| host_dockerhub : host_of "dockerhub" "docker.io/".

(** the invariant of the data model, for one reference *)
Definition parsed_non_empty (image : string) : Prop :=
  detect_registry image <> "unsupported" ->
  fst (parse_image_spec image (detect_registry image)) <> "" /\
  snd (parse_image_spec image (detect_registry image)) <> "".

(** [fields.get(k)] of a dict given by its items *)
Definition field (fields : list (string * json)) (k : string) : json :=
  match Py.lookup k fields with
  | Some v => v
  | None => JNull
  end.

Definition has_field (v : json) (k : string) (x : json) : Prop :=
  exists fields, v = JObj fields /\ Py.lookup k fields = Some x.

Definition lacks_field (v : json) (k : string) : Prop :=
  exists fields, v = JObj fields /\ Py.lookup k fields = None.

(** [sub] occurs in [s] *)
Definition substring_of (sub s : string) : Prop :=
  exists l r, s = l ++ sub ++ r.

(** the state after one more request *)
Definition sending (st : state) (req : request) : state :=
  State (sent st ++ [req]) (printed st).

(** The [platform.architecture] values of the entries that have a
    [platform], in the order of the entries. *)
Inductive architectures_of : list json -> list json -> Prop :=
| arch_nil : architectures_of [] []
| arch_skip e rest archs :
    lacks_field e "platform" ->
    architectures_of rest archs ->
    architectures_of (e :: rest) archs
| arch_take e p a rest archs :
    has_field e "platform" p ->
    has_field p "architecture" a ->
    architectures_of rest archs ->
    architectures_of (e :: rest) (a :: archs).

(** a world without environment variables whose network is down *)
Definition offline : world :=
  World (fun _ => None) (fun _ _ => RequestException).

Definition oci_config : string := "application/vnd.oci.image.config.v1+json".
Definition helm_config : string := "application/vnd.cncf.helm.config.v1+json".

(** C4 as it is stated: whenever the [manifests] field holds a list, the
    resolver returns a list, and that list is the architectures of the
    entries. *)
Definition lists_platform_architectures (manifest : json) : Prop :=
  forall fields entries,
    manifest = JObj fields ->
    Py.lookup "manifests" fields = Some (JArr entries) ->
    forall registry repository token w st,
    exists archs,
      check_architectures manifest registry repository token w st = (Ret archs, st) /\
      forall expected, architectures_of entries expected -> archs = expected.

Definition three_platforms : list json :=
  [JObj [("platform", JObj [("architecture", JStr "amd64")])];
   JObj [("digest", JStr "sha256:0")];
   JObj [("platform", JObj [("architecture", JStr "arm64")])];
   JObj [("platform", JObj [("architecture", JStr "amd64")])]].

(** a config descriptor whose media type names a Helm chart or an artifact *)
Definition non_container (config : json) : Prop :=
  exists mt, has_field config "mediaType" (JStr mt) /\
             (substring_of "helm" mt \/ substring_of "artifact" mt).

(** C5 as it is stated: every manifest with such a [config] resolves to
    the empty list and no request is sent. *)
Definition non_container_resolves_empty (manifest : json) : Prop :=
  forall config,
    has_field manifest "config" config ->
    non_container config ->
    forall registry repository token w st,
      check_architectures manifest registry repository token w st = (Ret [], st).

Definition amd64_entry : json :=
  JObj [("platform", JObj [("architecture", JStr "amd64")])].

(** a config descriptor of a container image: no media type, or one that
    names neither a Helm chart nor an artifact *)
Definition container_config (config : json) : Prop :=
  lacks_field config "mediaType" \/
  exists mt, has_field config "mediaType" (JStr mt) /\
             ~ substring_of "helm" mt /\ ~ substring_of "artifact" mt.

(** a manifest the resolver treats as single-arch: no (non-empty)
    [manifests], and a config descriptor [config] of a container image *)
Definition single_arch (manifest config : json) : Prop :=
  exists fields,
    manifest = JObj fields /\
    Py.truthy (field fields "manifests") = false /\
    Py.lookup "config" fields = Some config /\
    Py.truthy config = true /\
    container_config config.

Definition single_arch_example : json :=
  JObj [("schemaVersion", JNum 2);
        ("config", JObj [("mediaType", JStr oci_config);
                         ("digest", JStr "sha256:abc")])].

(** a world whose network answers every request with an arm64 config blob *)
Definition arm64_blobs : world :=
  World (fun _ => None) (fun _ _ => Body (JObj [("architecture", JStr "arm64")])).

(** C8 as it is stated: a manifest with a [manifests] field is an index,
    the comprehension over its list is the result (the empty list for an
    empty one) and the config path, with its blob request, is never taken. *)
Definition manifests_field_decides (manifest : json) : Prop :=
  forall fields entries,
    manifest = JObj fields ->
    Py.lookup "manifests" fields = Some (JArr entries) ->
    forall registry repository token w st,
      check_architectures manifest registry repository token w st
      = (platform_architectures entries, st).

(** a world in which only [GITHUB_TOKEN] is set *)
Definition with_github_token : world :=
  World (fun name => if name =? "GITHUB_TOKEN" then Some "ghp_example" else None)
        (fun _ _ => RequestException).

Definition quay_manifest_request (repository tag : string) : request :=
  GET (manifest_url "quay.io" repository tag) [] [accept_header].

Definition quay_single_arch : world :=
  World (fun _ => None) (fun _ _ => Body single_arch_example).

(** C1 as it is stated, for one run that resolves a non-empty list:
    status 0 when no required architecture is missing, 1 when one is. *)
Definition exit_reflects_coverage (image : string) (w : world) : Prop :=
  forall registry manifest architectures st,
    resolve image w start = (Ret (registry, manifest, architectures), st) ->
    architectures <> [] ->
    (missing_targets architectures = [] -> exit_status (fst (run image w)) = 0%Z) /\
    (missing_targets architectures <> [] -> exit_status (fst (run image w)) = 1%Z).

(** the token endpoint answers with a token, every other request with an
    index that lists amd64 only *)
Definition amd64_only : world :=
  World (fun _ => None)
        (fun _ req =>
           match url req with
           | [Lit "https://auth.docker.io/token"] =>
               Body (JObj [("token", JStr "t")])
           | _ => Body (JObj [("schemaVersion", JNum 2);
                              ("manifests", JArr [amd64_entry])])
           end).

(** a pure step returns or raises, it never ends the process *)
Definition no_exit {A : Type} (r : result A) : Prop :=
  match r with
  | Exit _ => False
  | _ => True
  end.

Definition stderr_only (lines : list (stream * message)) : Prop :=
  Forall (fun line => fst line = Stderr) lines.

(** A computation that only adds requests, writes to standard error
    alone, and writes exactly when it ends the process, which it does with
    status 1. *)
Definition disciplined {A : Type} (m : M A) : Prop :=
  forall w st,
  exists reqs errs,
    sent (snd (m w st)) = (sent st ++ reqs)%list /\
    printed (snd (m w st)) = (printed st ++ errs)%list /\
    stderr_only errs /\
    match fst (m w st) with
    | Exit code => code = 1%Z /\ errs <> []
    | _ => errs = []
    end.




(** a world whose token endpoint answers without a [token] *)
Definition tokenless : world :=
  World (fun _ => None) (fun _ _ => Body (JObj [("error", JStr "denied")])).

(** a result that carries at most one architecture *)
Definition at_most_one (r : result (list json)) : Prop :=
  match r with
  | Ret architectures => length architectures <= 1
  | _ => True
  end.

(** the media type the reporter reads off a manifest: that of its
    [config], the empty string when there is no [config] or no media type *)
Definition media_type_of (fields : list (string * json)) (mt : string) : Prop :=
  (Py.lookup "config" fields = None /\ mt = "") \/
  exists config,
    Py.lookup "config" fields = Some config /\
    ((lacks_field config "mediaType" /\ mt = "") \/
     has_field config "mediaType" (JStr mt)).

(** the process ends with status 1 when it is ended *)
Definition exits_with_one {A : Type} (r : result A) : Prop :=
  match r with
  | Exit code => code = 1%Z
  | _ => True
  end.

(** a world whose network answers every request with a Helm chart manifest *)
Definition helm_only : world :=
  World (fun _ => None)
        (fun _ _ => Body (JObj [("config", JObj [("mediaType", JStr helm_config)])])).

(** Lower case, said without the model's [lower]: each of the letters
    [A]-[Z] is replaced by the letter at the same place of [a]-[z], every
    other character is kept. *)
Definition upper_letters : string := "ABCDEFGHIJKLMNOPQRSTUVWXYZ".








(** C10 as it is stated, for one manifest: with [QUAY_TOKEN] unset, a
    manifest without non-empty [manifests] whose [config] is there and
    names neither a Helm chart nor an artifact resolves to [['unknown']]. *)
Definition quay_anonymous_unknown (manifest : json) : Prop :=
  forall fields config repository w st,
    manifest = JObj fields ->
    Py.truthy (field fields "manifests") = false ->
    Py.lookup "config" fields = Some config ->
    container_config config ->
    environ w "QUAY_TOKEN" = None ->
    check_architectures manifest (Some "quay") (Some repository)
      (Py.of_env (environ w "QUAY_TOKEN")) w st
    = (Ret [JStr "unknown"], st).

(** * Properties *)

(** ** The spec's own examples *)

Example detect_nginx : detect_registry "nginx" = "dockerhub".
Proof. reflexivity. Qed.

Example detect_custom : detect_registry "gcr.io/proj/img" = "unsupported".
Proof. reflexivity. Qed.

Example parse_nginx :
  parse_image_spec "Nginx:1.25" "dockerhub" = ("library/nginx", "1.25").
Proof. reflexivity. Qed.

Example parse_two_segments :
  parse_image_spec "Owner/Image" (detect_registry "Owner/Image")
  = ("owner/image", "latest").
Proof. reflexivity. Qed.

Example parse_ghcr :
  parse_image_spec "ghcr.io/Owner/Img" "ghcr" = ("owner/img", "latest").
Proof. reflexivity. Qed.

(** ** What the string primitives compute *)

Section StringFacts.

Lemma startswith_app (p r : string) : startswith (p ++ r) p = true.
Proof.
  induction p as [|a p IH]; simpl.
  - reflexivity.
  - now rewrite Ascii.eqb_refl, IH.
Qed.

Lemma startswith_drop (p s : string) :
  startswith s p = true -> s = p ++ drop (String.length p) s.
Proof.
  revert s; induction p as [|a p IH]; intros s H; simpl in *.
  - reflexivity.
  - destruct s as [|b s]; [discriminate|].
    apply andb_true_iff in H as [Hab Hs].
    apply Ascii.eqb_eq in Hab; subst b.
    simpl. f_equal. now apply IH.
Qed.

Lemma startswith_iff (p s : string) : startswith s p = true <-> has_prefix p s.
Proof.
  split.
  - intros H. exists (drop (String.length p) s). now apply startswith_drop.
  - intros [r ->]. apply startswith_app.
Qed.

Lemma drop_app (p r : string) : drop (String.length p) (p ++ r) = r.
Proof.
  induction p as [|a p IH]; simpl; [now destruct r|exact IH].
Qed.

Lemma has_char_iff (c : ascii) (s : string) : has_char c s = true <-> occurs c s.
Proof.
  split.
  - induction s as [|a s IH]; simpl; [discriminate|].
    intros H. apply orb_true_iff in H as [H|H].
    + apply Ascii.eqb_eq in H; subst a. now exists EmptyString, s.
    + destruct (IH H) as (l & r & ->). now exists (String a l), r.
  - intros (l & r & ->). induction l as [|a l IH]; simpl.
    + now rewrite Ascii.eqb_refl.
    + rewrite IH. apply orb_true_r.
Qed.

Lemma has_char_false_iff (c : ascii) (s : string) :
  has_char c s = false <-> ~ occurs c s.
Proof.
  rewrite <- has_char_iff. destruct (has_char c s); split; congruence.
Qed.

Lemma has_char_app (c : ascii) (l r : string) :
  has_char c (l ++ r) = has_char c l || has_char c r.
Proof.
  induction l as [|a l IH]; simpl; [reflexivity|].
  now rewrite IH, orb_assoc.
Qed.

Lemma count_app (c : ascii) (l r : string) :
  count c (l ++ r) = count c l + count c r.
Proof.
  induction l as [|a l IH]; simpl; [reflexivity|]. rewrite IH. lia.
Qed.

Lemma count_zero_iff (c : ascii) (s : string) :
  count c s = 0 <-> has_char c s = false.
Proof.
  induction s as [|a s IH]; simpl; [tauto|].
  destruct (Ascii.eqb a c); simpl; [split; [lia|discriminate]|exact IH].
Qed.

Lemma before_clean (c : ascii) (s : string) : has_char c (before c s) = false.
Proof.
  induction s as [|a s IH]; simpl; [reflexivity|].
  destruct (Ascii.eqb a c) eqn:E; simpl; [reflexivity|]. now rewrite E.
Qed.

Lemma before_all (c : ascii) (s : string) :
  has_char c s = false -> before c s = s.
Proof.
  induction s as [|a s IH]; simpl; [reflexivity|].
  intros H. apply orb_false_iff in H as [E H]. rewrite E. f_equal. now apply IH.
Qed.

Lemma split_first (c : ascii) (s : string) :
  has_char c s = true -> s = before c s ++ String c (after c s).
Proof.
  induction s as [|a s IH]; simpl; [discriminate|].
  destruct (Ascii.eqb a c) eqn:E; simpl.
  - intros _. apply Ascii.eqb_eq in E. now subst a.
  - intros H. f_equal. now apply IH.
Qed.

Lemma before_app (c : ascii) (l r : string) :
  has_char c l = false -> before c (l ++ String c r) = l.
Proof.
  induction l as [|a l IH]; simpl.
  - now rewrite Ascii.eqb_refl.
  - intros H. apply orb_false_iff in H as [E H]. rewrite E. f_equal. now apply IH.
Qed.

Lemma after_app (c : ascii) (l r : string) :
  has_char c l = false -> after c (l ++ String c r) = r.
Proof.
  induction l as [|a l IH]; simpl.
  - now rewrite Ascii.eqb_refl.
  - intros H. apply orb_false_iff in H as [E H]. rewrite E. now apply IH.
Qed.

Lemma lower_length (s : string) : String.length (lower s) = String.length s.
Proof.
  induction s as [|a s IH]; simpl; congruence.
Qed.

Lemma lower_empty_iff (s : string) : lower s = "" <-> s = "".
Proof.
  destruct s; simpl; split; intros H; congruence.
Qed.

Lemma app_empty_iff (l r : string) : l ++ r = "" <-> l = "" /\ r = "".
Proof.
  destruct l; simpl; split; try tauto; try intros [H _]; congruence.
Qed.

End StringFacts.

(** ** Registry detector *)

Section Detector.

Lemma first_segment_iff (image seg : string) :
  first_segment image seg <-> seg = before "/" image.
Proof.
  split.
  - intros [Hn [->|[rest ->]]]; apply has_char_false_iff in Hn.
    + now rewrite before_all.
    + now rewrite before_app.
  - intros ->. split.
    + apply has_char_false_iff, before_clean.
    + destruct (has_char "/" image) eqn:E.
      * right. exists (after "/" image). now apply split_first.
      * left. now rewrite before_all.
Qed.

Lemma one_slash_iff (image : string) :
  one_slash image <-> count "/" image = 1.
Proof.
  split.
  - intros (l & r & -> & Hl & Hr).
    apply has_char_false_iff, count_zero_iff in Hl, Hr.
    rewrite count_app. simpl. lia.
  - intros H. destruct (has_char "/" image) eqn:E.
    + exists (before "/" image), (after "/" image).
      pose proof (split_first _ _ E) as Hs.
      pose proof (before_clean "/" image) as Hb.
      split; [exact Hs|]. split; [now apply has_char_false_iff|].
      apply has_char_false_iff, count_zero_iff.
      rewrite Hs, count_app in H. apply count_zero_iff in Hb. simpl in H. lia.
    + apply count_zero_iff in E. lia.
Qed.

Lemma dockerhub_name_iff (image : string) :
  dockerhub_name image <->
  (negb (has_char "/" image) || (count "/" image =? 1)%nat)
  && negb (has_char "." (before "/" image)) = true.
Proof.
  unfold dockerhub_name, no_slash.
  rewrite andb_true_iff, orb_true_iff, negb_true_iff, negb_true_iff,
    Nat.eqb_eq, <- one_slash_iff, !has_char_false_iff.
  split; intros [H1 H2]; (split; [exact H1|]).
  - apply H2. now apply first_segment_iff.
  - intros seg Hs. apply first_segment_iff in Hs. now subst seg.
Qed.

Lemma known_prefix_iff (image : string) :
  known_prefix image <->
  startswith image "ghcr.io/" || startswith image "quay.io/"
  || startswith image "docker.io/" = true.
Proof.
  unfold known_prefix. now rewrite !orb_true_iff, !startswith_iff, or_assoc.
Qed.

(** the source's nested conditions, flattened *)
Lemma detect_registry_eq (image : string) :
  detect_registry image =
  if startswith image "ghcr.io/" then "ghcr"
  else if startswith image "quay.io/" then "quay"
  else if startswith image "docker.io/" then "dockerhub"
  else if (negb (has_char "/" image) || (count "/" image =? 1)%nat)
          && negb (has_char "." (before "/" image))
       then "dockerhub" else "unsupported".
Proof.
  unfold detect_registry.
  destruct (negb (has_char "/" image) || (count "/" image =? 1)%nat);
    destruct (negb (has_char "." (before "/" image))); reflexivity.
Qed.

(** C2: the detector answers [ghcr], [quay] or [dockerhub] on the three
    host prefixes, tried in that order; without such a prefix a name with
    at most one ['/'] whose first segment has no ['.'] is [dockerhub];
    every other name is [unsupported], in particular every name without a
    known prefix whose first segment contains a ['.'].  The answer is a
    function of the string alone. *)
Theorem detect_registry_rules (image : string) :
  (has_prefix "ghcr.io/" image -> detect_registry image = "ghcr") /\
  (~ has_prefix "ghcr.io/" image -> has_prefix "quay.io/" image ->
     detect_registry image = "quay") /\
  (~ has_prefix "ghcr.io/" image -> ~ has_prefix "quay.io/" image ->
   has_prefix "docker.io/" image -> detect_registry image = "dockerhub") /\
  (~ known_prefix image -> dockerhub_name image ->
     detect_registry image = "dockerhub") /\
  (~ known_prefix image -> ~ dockerhub_name image ->
     detect_registry image = "unsupported") /\
  (~ known_prefix image ->
   (exists seg, first_segment image seg /\ occurs "." seg) ->
     detect_registry image = "unsupported").
Proof.
  rewrite detect_registry_eq, known_prefix_iff, dockerhub_name_iff.
  rewrite <- !startswith_iff.
  destruct (startswith image "ghcr.io/"), (startswith image "quay.io/"),
    (startswith image "docker.io/"); simpl;
    repeat split; try congruence; try tauto.
  - intros _ H. now rewrite H.
  - intros _ H. now destruct (_ && _).
  - intros _ (seg & Hs & Hd). apply first_segment_iff in Hs. subst seg.
    apply has_char_iff in Hd. rewrite Hd. simpl. now rewrite andb_false_r.
Qed.

Lemma detect_registry_rules_witness :
  detect_registry "ghcr.io/owner/image:latest" = "ghcr" /\
  detect_registry "quay.io/namespace/image" = "quay" /\
  detect_registry "docker.io/library/nginx" = "dockerhub" /\
  detect_registry "owner/image" = "dockerhub" /\
  detect_registry "a/b/c" = "unsupported" /\
  detect_registry "registry.example.com/image" = "unsupported".
Proof.
  assert (K : forall s, startswith s "ghcr.io/" || startswith s "quay.io/"
                        || startswith s "docker.io/" = false -> ~ known_prefix s).
  { intros s H C. apply known_prefix_iff in C. congruence. }
  refine (conj _ (conj _ (conj _ (conj _ (conj _ _))))).
  - destruct (detect_registry_rules "ghcr.io/owner/image:latest") as (R & _).
    apply R. now exists "owner/image:latest".
  - destruct (detect_registry_rules "quay.io/namespace/image") as (_ & R & _).
    apply R.
    + intros C. apply startswith_iff in C. discriminate.
    + now exists "namespace/image".
  - destruct (detect_registry_rules "docker.io/library/nginx") as (_ & _ & R & _).
    apply R.
    + intros C. apply startswith_iff in C. discriminate.
    + intros C. apply startswith_iff in C. discriminate.
    + now exists "library/nginx".
  - destruct (detect_registry_rules "owner/image") as (_ & _ & _ & R & _).
    apply R.
    + now apply K.
    + now apply dockerhub_name_iff.
  - destruct (detect_registry_rules "a/b/c") as (_ & _ & _ & _ & R & _).
    apply R.
    + now apply K.
    + intros C. apply dockerhub_name_iff in C. discriminate.
  - destruct (detect_registry_rules "registry.example.com/image")
      as (_ & _ & _ & _ & _ & R).
    apply R.
    + now apply K.
    + exists "registry.example.com". split.
      * now apply first_segment_iff.
      * now apply has_char_iff.
Defined.

End Detector.

(** ** Reference parser *)

Section Parser.

(** the source's steps, with the pair of the split taken apart *)
Lemma parse_image_spec_eq (image registry host : string) :
  host_of registry host ->
  parse_image_spec image registry =
  let stripped :=
    if startswith image host then drop (String.length host) image else image in
  let repository :=
    if has_char ":" stripped then before ":" stripped else stripped in
  let tag := if has_char ":" stripped then after ":" stripped else "latest" in
  (lower (if (registry =? "dockerhub") && negb (has_char "/" repository)
          then "library/" ++ repository else repository), tag).
Proof.
  intros H. unfold parse_image_spec.
  destruct H; cbv [String.eqb Ascii.eqb Bool.eqb String.length andb];
    destruct (startswith image _); destruct (has_char ":" _); reflexivity.
Qed.










(** C7, as stated, fails: a trailing colon leaves the tag empty, and a
    bare [ghcr.io/] leaves the repository empty. *)
Lemma parsed_non_empty_counterexample :
  ~ parsed_non_empty "nginx:" /\ ~ parsed_non_empty "ghcr.io/".
Proof.
  split; intros H.
  - destruct H as [_ H]; [discriminate|]. now apply H.
  - destruct H as [H _]; [discriminate|]. now apply H.
Qed.

Lemma after_skip (c : ascii) (l s : string) :
  has_char c l = false -> after c (l ++ s) = after c s.
Proof.
  induction l as [|a l IH]; simpl; [reflexivity|].
  intros H. apply orb_false_iff in H as [E H]. rewrite E. now apply IH.
Qed.

Lemma first_is_last (c : ascii) (s : string) :
  has_char c s = true /\ after c s = "" <->
  exists r, ~ occurs c r /\ s = r ++ String c "".
Proof.
  split.
  - intros [H E]. exists (before c s). split.
    + apply has_char_false_iff, before_clean.
    + rewrite <- E. now apply split_first.
  - intros (r & Hr & ->). apply has_char_false_iff in Hr. split.
    + rewrite has_char_app. simpl. rewrite Ascii.eqb_refl. apply orb_true_r.
    + now apply after_app.
Qed.

Lemma head_empty_iff (c : ascii) (s : string) :
  (if has_char c s then before c s else s) = "" <->
  s = "" \/ exists t, s = String c t.
Proof.
  destruct s as [|a s]; simpl.
  - tauto.
  - destruct (Ascii.eqb a c) eqn:E; simpl.
    + apply Ascii.eqb_eq in E. subst a. split; [|reflexivity].
      intros _. right. now exists s.
    + split.
      * destruct (has_char c s); discriminate.
      * intros [H|[t H]]; [discriminate|].
        injection H as -> _. now rewrite Ascii.eqb_refl in E.
Qed.

Lemma detect_registry_supported (image : string) :
  detect_registry image <> "unsupported" ->
  (has_prefix "ghcr.io/" image /\ detect_registry image = "ghcr") \/
  (has_prefix "quay.io/" image /\ detect_registry image = "quay") \/
  detect_registry image = "dockerhub".
Proof.
  rewrite detect_registry_eq, <- !startswith_iff.
  destruct (startswith image "ghcr.io/"), (startswith image "quay.io/"),
    (startswith image "docker.io/"); try tauto.
  destruct (_ && _); tauto.
Qed.

Lemma parse_tag (image registry host : string) :
  host_of registry host ->
  snd (parse_image_spec image registry) =
  if has_char ":" image then after ":" image else "latest".
Proof.
  intros H. rewrite (parse_image_spec_eq _ _ _ H). cbv zeta. cbn [snd].
  assert (Hh : has_char ":" host = false) by (destruct H; reflexivity).
  destruct (startswith image host) eqn:E; [|reflexivity].
  apply startswith_drop in E.
  generalize dependent (drop (String.length host) image).
  intros s ->. now rewrite has_char_app, Hh, after_skip.
Qed.

Lemma parse_repository_hosted (host registry s : string) :
  host_of registry host -> registry <> "dockerhub" ->
  fst (parse_image_spec (host ++ s) registry) =
  lower (if has_char ":" s then before ":" s else s).
Proof.
  intros H Hr. rewrite (parse_image_spec_eq _ _ _ H). cbv zeta. cbn [fst].
  rewrite startswith_app, drop_app.
  apply String.eqb_neq in Hr. now rewrite Hr.
Qed.

Lemma parse_repository_dockerhub (image : string) :
  fst (parse_image_spec image "dockerhub") <> "".
Proof.
  rewrite (parse_image_spec_eq _ _ _ host_dockerhub). cbv zeta. cbn [fst].
  rewrite lower_empty_iff, String.eqb_refl. cbn [andb].
  match goal with |- context [has_char "/" ?r] => generalize r end.
  intros r. destruct r; simpl; [discriminate|].
  destruct (_ || _); discriminate.
Qed.

(** C7, amended: after detection of a supported registry the repository
    is empty exactly when the reference is [ghcr.io/] or [quay.io/] with
    nothing, or a [':'], right after it, and the tag is empty exactly when
    the first [':'] of the reference is its last character; in every other
    case both are non-empty. *)
Theorem parsed_parts_empty_iff (image : string) :
  detect_registry image <> "unsupported" ->
  (fst (parse_image_spec image (detect_registry image)) = "" <->
   exists host, (host = "ghcr.io/" \/ host = "quay.io/") /\
                (image = host \/ exists t, image = host ++ String ":" t)) /\
  (snd (parse_image_spec image (detect_registry image)) = "" <->
   exists r, ~ occurs ":" r /\ image = r ++ ":").
Proof.
  intros Hsup. split.
  - destruct (detect_registry_supported image Hsup) as [[Hp Hd]|[[Hp Hd]|Hd]];
      rewrite Hd; try (destruct Hp as [s Hs]; subst image).
    + rewrite (parse_repository_hosted _ _ s host_ghcr) by discriminate.
      rewrite lower_empty_iff, head_empty_iff. split.
      * intros [-> | [t ->]]; exists "ghcr.io/"; split; auto. right. now exists t.
      * intros (host & [-> | ->] & [H|[t H]]); simpl in H; try discriminate.
        -- left. now injection H.
        -- right. exists t. now injection H.
    + rewrite (parse_repository_hosted _ _ s host_quay) by discriminate.
      rewrite lower_empty_iff, head_empty_iff. split.
      * intros [-> | [t ->]]; exists "quay.io/"; split; auto. right. now exists t.
      * intros (host & [-> | ->] & [H|[t H]]); simpl in H; try discriminate.
        -- left. now injection H.
        -- right. exists t. now injection H.
    + split.
      * intros H. now apply parse_repository_dockerhub in H.
      * intros (host & [-> | ->] & [-> | [t ->]]); discriminate.
  - assert (exists host, host_of (detect_registry image) host) as [host H].
    { destruct (detect_registry_supported image Hsup) as [[_ ->] | [[_ ->] | ->]];
        eexists; constructor. }
    rewrite (parse_tag _ _ _ H), <- first_is_last.
    destruct (has_char ":" image); split; try tauto; try discriminate.
    intros [? _]. discriminate.
Qed.

Lemma parsed_parts_empty_iff_witness :
  detect_registry "quay.io/:v1" <> "unsupported" /\
  fst (parse_image_spec "quay.io/:v1" (detect_registry "quay.io/:v1")) = "".
Proof.
  split.
  - discriminate.
  - apply (parsed_parts_empty_iff "quay.io/:v1").
    + discriminate.
    + exists "quay.io/". split; [now right|]. right. now exists "v1".
Defined.

End Parser.

(** ** Architecture resolver *)

Section Resolver.

Lemma contains_unfold (sub s : string) :
  contains sub s =
  startswith s sub || match s with EmptyString => false | String _ s' => contains sub s' end.
Proof. now destruct s. Qed.

Lemma contains_iff (sub s : string) : contains sub s = true <-> substring_of sub s.
Proof.
  split.
  - induction s as [|a s IH]; rewrite contains_unfold; intros H;
      apply orb_true_iff in H as [H|H]; try discriminate.
    + apply startswith_drop in H. exists EmptyString. eexists. exact H.
    + apply startswith_drop in H. exists EmptyString. eexists. exact H.
    + destruct (IH H) as (l & r & ->). now exists (String a l), r.
  - intros (l & r & ->). induction l as [|a l IH]; rewrite contains_unfold.
    + simpl. now rewrite startswith_app.
    + simpl. rewrite IH. apply orb_true_r.
Qed.

Lemma contains_false_iff (sub s : string) :
  contains sub s = false <-> ~ substring_of sub s.
Proof.
  rewrite <- contains_iff. destruct (contains sub s); split; congruence.
Qed.

Lemma get_field (fields : list (string * json)) (k : string) :
  Py.get (JObj fields) k = Ret (field fields k).
Proof. reflexivity. Qed.

Lemma field_lookup (fields : list (string * json)) (k : string) (v : json) :
  Py.lookup k fields = Some v -> field fields k = v.
Proof. unfold field. now intros ->. Qed.

Lemma platform_architectures_of (entries archs : list json) :
  architectures_of entries archs -> platform_architectures entries = Ret archs.
Proof.
  induction 1 as [|e rest archs (f & -> & Hf) _ IH
                  |e p a rest archs (f & -> & Hf) (pf & -> & Hp) _ IH]; simpl.
  - reflexivity.
  - now rewrite Hf.
  - rewrite Hf. simpl. rewrite Hp. simpl. now rewrite IH.
Qed.

Lemma architectures_of_nil (archs : list json) :
  architectures_of [] archs -> archs = [].
Proof. now inversion 1. Qed.

(** the result is laid out entry by entry: order and repetitions are those
    of the manifest *)
Lemma architectures_of_app (l1 l2 a1 a2 : list json) :
  architectures_of l1 a1 -> architectures_of l2 a2 ->
  architectures_of (l1 ++ l2) (a1 ++ a2).
Proof.
  induction 1; intros H2; simpl.
  - assumption.
  - apply arch_skip; auto.
  - eapply arch_take; eauto.
Qed.

(** C4, as stated, fails twice.  An empty [manifests] list is falsy, so a
    manifest that also has a [config] is resolved through the config, here
    to [['unknown']] and not to the empty list of its entries.  And an
    entry whose [platform] has no [architecture] is not passed over: the
    resolver raises [KeyError] instead of returning a list. *)
Lemma lists_platform_architectures_counterexample :
  ~ lists_platform_architectures
      (JObj [("manifests", JArr []);
             ("config", JObj [("mediaType", JStr oci_config)])]) /\
  ~ lists_platform_architectures
      (JObj [("manifests", JArr [JObj [("platform", JObj [("os", JStr "linux")])]])]).
Proof.
  split; intros H.
  - destruct (H _ [] eq_refl eq_refl None None JNull offline start)
      as (archs & Hr & He).
    specialize (He [] arch_nil). subst archs. discriminate Hr.
  - destruct (H _ _ eq_refl eq_refl None None JNull offline start)
      as (archs & Hr & _).
    discriminate Hr.
Qed.

(** C4, amended: when the [manifests] field holds a non-empty list (or an
    empty one and there is no non-empty [config]) whose entries are
    objects, the [platform] of each, when it has one, an object with an
    [architecture], the resolver returns the [platform.architecture]
    values of the entries that have a [platform], in manifest order,
    duplicates kept, the other entries skipped, and sends no request. *)
Theorem index_architectures (fields : list (string * json))
    (entries archs : list json) (registry repository : option string)
    (token : json) (w : world) (st : state) :
  Py.lookup "manifests" fields = Some (JArr entries) ->
  entries <> [] \/ Py.truthy (field fields "config") = false ->
  architectures_of entries archs ->
  check_architectures (JObj fields) registry repository token w st = (Ret archs, st).
Proof.
  intros Hm Hne Ha.
  unfold check_architectures, bind, lift. rewrite !get_field.
  rewrite (field_lookup _ _ _ Hm).
  destruct entries as [|e rest].
  - destruct Hne as [Hne|Hc]; [congruence|].
    cbn [Py.truthy]. rewrite Hc. now rewrite (architectures_of_nil _ Ha).
  - cbn [Py.truthy Py.iter]. now rewrite (platform_architectures_of _ _ Ha).
Qed.

Lemma index_architectures_witness :
  check_architectures (JObj [("manifests", JArr three_platforms)])
    None None JNull offline start
  = (Ret [JStr "amd64"; JStr "arm64"; JStr "amd64"], start).
Proof.
  apply (index_architectures [("manifests", JArr three_platforms)] three_platforms).
  - reflexivity.
  - left. discriminate.
  - eapply arch_take; [eexists; split; reflexivity | eexists; split; reflexivity |].
    eapply arch_skip; [eexists; split; reflexivity |].
    eapply arch_take; [eexists; split; reflexivity | eexists; split; reflexivity |].
    eapply arch_take; [eexists; split; reflexivity | eexists; split; reflexivity |].
    constructor.
Defined.

(** C5, as stated, fails: the [manifests] list is looked at first, so a
    manifest that has a non-empty one beside its Helm [config] resolves to
    the architectures of that list. *)
Lemma non_container_resolves_empty_counterexample :
  ~ non_container_resolves_empty
      (JObj [("manifests", JArr [amd64_entry]);
             ("config", JObj [("mediaType", JStr helm_config)])]).
Proof.
  intros H.
  specialize (H (JObj [("mediaType", JStr helm_config)])).
  assert (Hc : non_container (JObj [("mediaType", JStr helm_config)])).
  { exists helm_config. split.
    - eexists. split; reflexivity.
    - left. now apply contains_iff. }
  specialize (H ltac:(eexists; split; reflexivity) Hc None None JNull offline start).
  discriminate H.
Qed.

(** C5, amended: a manifest whose [manifests] field is absent or empty and
    whose [config] has a media type containing ["helm"] or ["artifact"]
    resolves to the empty list, with no request sent, whatever the digest,
    registry, repository and token are. *)
Theorem non_container_architectures (fields : list (string * json))
    (config : json) (registry repository : option string) (token : json)
    (w : world) (st : state) :
  Py.truthy (field fields "manifests") = false ->
  Py.lookup "config" fields = Some config ->
  non_container config ->
  check_architectures (JObj fields) registry repository token w st = (Ret [], st).
Proof.
  intros Hm Hc (mt & (cf & -> & Hmt) & Hsub).
  unfold check_architectures, bind, lift. rewrite !get_field, Hm.
  rewrite (field_lookup _ _ _ Hc).
  assert (Ht : Py.truthy (JObj cf) = true) by (now destruct cf).
  rewrite Ht. cbn [Py.get_or]. rewrite Hmt. cbn [Py.str_in].
  destruct Hsub as [Hs|Hs]; apply contains_iff in Hs.
  - now rewrite Hs.
  - destruct (contains "helm" mt); [reflexivity|].
    cbn [Py.str_in]. now rewrite Hs.
Qed.

Lemma non_container_architectures_witness :
  check_architectures
    (JObj [("schemaVersion", JNum 2);
           ("config", JObj [("mediaType", JStr helm_config);
                            ("digest", JStr "sha256:abc")])])
    (Some "ghcr") (Some "owner/chart") (JStr "token") offline start
  = (Ret [], start).
Proof.
  apply (non_container_architectures _
           (JObj [("mediaType", JStr helm_config); ("digest", JStr "sha256:abc")])).
  - reflexivity.
  - reflexivity.
  - exists helm_config. split.
    + eexists. split; reflexivity.
    + left. now apply contains_iff.
Defined.

Lemma bind_lift {A B : Type} (a : A) (k : A -> M B) (w : world) (st : state) :
  bind (lift (Ret a)) k w st = k a w st.
Proof. reflexivity. Qed.

(** what is left of the resolver once a manifest is known to be single-arch *)
Lemma single_arch_guard (manifest config : json) (reg repo : string)
    (token : json) (w : world) (st : state) :
  single_arch manifest config ->
  check_architectures manifest (Some reg) (Some repo) token w st =
  (if Py.str_truthy (Some reg) && Py.str_truthy (Some repo) && Py.truthy token
   then
     digest <- lift (Py.get config "digest") ;;
     if Py.truthy digest then
       config_blob <- get_config_blob reg repo digest token ;;
       arch <- lift (Py.get config_blob "architecture") ;;
       if Py.truthy arch then ret [arch] else ret unknown
     else ret unknown
   else ret unknown) w st.
Proof.
  intros (fields & -> & Hm & Hc & Ht & Hk).
  unfold check_architectures.
  rewrite get_field, bind_lift. cbv beta. rewrite Hm.
  rewrite get_field, bind_lift. cbv beta. rewrite (field_lookup _ _ _ Hc), Ht.
  destruct Hk as [(cf & -> & Hl)|(mt & (cf & -> & Hl) & Hh & Ha)];
    cbn [Py.get_or]; rewrite Hl, bind_lift; cbv beta; cbn [Py.str_in].
  - change (contains "helm" "") with false.
    change (contains "artifact" "") with false.
    rewrite bind_lift. cbv beta iota. now rewrite bind_lift.
  - apply contains_false_iff in Hh, Ha. rewrite Hh, Ha.
    rewrite bind_lift. cbv beta iota. now rewrite bind_lift.
Qed.

Lemma single_arch_example_ok :
  single_arch single_arch_example
    (JObj [("mediaType", JStr oci_config); ("digest", JStr "sha256:abc")]).
Proof.
  eexists. repeat split; try reflexivity.
  right. exists oci_config. split; [eexists; split; reflexivity|].
  split; apply contains_false_iff; reflexivity.
Qed.




(** C8, as stated, fails: with an empty [manifests] list beside a [config]
    the config path is taken, the config blob is fetched and its
    architecture is the result. *)
Lemma manifests_field_decides_counterexample :
  ~ manifests_field_decides
      (JObj [("manifests", JArr []);
             ("config", JObj [("mediaType", JStr oci_config);
                              ("digest", JStr "sha256:abc")])]).
Proof.
  intros H.
  specialize (H _ [] eq_refl eq_refl
                (Some "dockerhub") (Some "library/nginx") (JStr "t") arm64_blobs start).
  discriminate H.
Qed.

(** C8, amended: the shape is decided by truthiness, not presence, and at
    most one shape applies.  A manifest whose [manifests] field is
    non-empty is an index: its result is computed from that field alone
    and nothing is sent, whatever [config] it also has.  A manifest whose
    [manifests] field is absent or empty resolves as its [config] alone
    does, and to the empty list when that is absent or empty too. *)
Theorem shape_by_truthiness (fields : list (string * json))
    (registry repository : option string) (token : json) (w : world) (st : state) :
  (Py.truthy (field fields "manifests") = true ->
   check_architectures (JObj fields) registry repository token w st
   = (rbind (Py.iter (field fields "manifests")) platform_architectures, st)) /\
  (Py.truthy (field fields "manifests") = false ->
   check_architectures (JObj fields) registry repository token w st
   = check_architectures (JObj [("config", field fields "config")])
       registry repository token w st) /\
  (Py.truthy (field fields "manifests") = false ->
   Py.truthy (field fields "config") = false ->
   check_architectures (JObj fields) registry repository token w st = (Ret [], st)).
Proof.
  unfold check_architectures.
  rewrite !get_field, !bind_lift. cbv beta.
  split; [|split].
  - intros ->. unfold bind, lift.
    destruct (Py.iter (field fields "manifests")); reflexivity.
  - intros ->. rewrite !bind_lift. reflexivity.
  - intros -> Hc. rewrite bind_lift. cbv beta. now rewrite Hc.
Qed.

Lemma shape_by_truthiness_witness :
  check_architectures
    (JObj [("manifests", JArr [amd64_entry]);
           ("config", JObj [("mediaType", JStr oci_config);
                            ("digest", JStr "sha256:abc")])])
    (Some "dockerhub") (Some "library/nginx") (JStr "t") arm64_blobs start
  = (Ret [JStr "amd64"], start) /\
  check_architectures (JObj [("manifests", JArr []); ("config", JObj [])])
    (Some "dockerhub") (Some "library/nginx") (JStr "t") arm64_blobs start
  = (Ret [], start).
Proof.
  split.
  - apply (shape_by_truthiness
             [("manifests", JArr [amd64_entry]);
              ("config", JObj [("mediaType", JStr oci_config);
                               ("digest", JStr "sha256:abc")])]).
    reflexivity.
  - apply (shape_by_truthiness [("manifests", JArr []); ("config", JObj [])]);
      reflexivity.
Defined.

End Resolver.

(** ** Auth provider *)

Section Auth.

(** C9: for ghcr a token held by [GITHUB_TOKEN] (set, and not empty: the
    source tests its truth value) is returned as it is and nothing is
    sent; otherwise one request goes to the anonymous token endpoint with
    the pull scope of the repository, and its answer's [token] is the
    result.  For quay the value of [QUAY_TOKEN] is returned when set,
    [None] when not, and nothing is sent in either case. *)
Theorem auth_provider (repository : string) (w : world) (st : state) :
  (forall t, environ w "GITHUB_TOKEN" = Some t -> t <> "" ->
     get_ghcr_auth_token repository w st = (Ret (JStr t), st)) /\
  (environ w "GITHUB_TOKEN" = None \/ environ w "GITHUB_TOKEN" = Some "" ->
     sent (snd (get_ghcr_auth_token repository w st))
     = (sent st ++ [GET [Lit "https://ghcr.io/token"]
                        [("scope", [Lit "repository:"; Fmt (JStr repository);
                                    Lit ":pull"])]
                        []])%list /\
     forall b,
       http w (sent st) (ghcr_token_request repository) = Body b ->
       fst (get_ghcr_auth_token repository w st) = Py.getitem b "token") /\
  (forall t, environ w "QUAY_TOKEN" = Some t ->
     get_quay_auth_token w st = (Ret (JStr t), st)) /\
  (environ w "QUAY_TOKEN" = None -> get_quay_auth_token w st = (Ret JNull, st)).
Proof.
  unfold get_ghcr_auth_token, get_quay_auth_token, bind, getenv, ret.
  split; [|split; [|split]].
  - intros t -> Ht. cbn. apply String.eqb_neq in Ht. now rewrite Ht.
  - intros [-> | ->]; cbn;
      (split; [|intros b; unfold ghcr_token_request, pull_scope; intros ->]);
      try (destruct (http w (sent st) _); cbn; reflexivity);
      cbn; unfold lift; now destruct (Py.getitem b "token").
  - now intros t ->.
  - now intros ->.
Qed.

Lemma auth_provider_witness :
  get_ghcr_auth_token "owner/image" with_github_token start
  = (Ret (JStr "ghp_example"), start) /\
  get_quay_auth_token with_github_token start = (Ret JNull, start).
Proof.
  destruct (auth_provider "owner/image" with_github_token start)
    as (Hghcr & _ & _ & Hquay).
  split.
  - apply Hghcr; [reflexivity|discriminate].
  - apply Hquay. reflexivity.
Defined.

End Auth.

(** ** The whole run *)

Section Script.

(** C10, as stated, fails: an empty [config] object is there and names
    neither a Helm chart nor an artifact, but it is falsy, so the resolver
    takes the manifest for neither shape and returns the empty list. *)
Lemma quay_anonymous_unknown_counterexample :
  ~ quay_anonymous_unknown (JObj [("schemaVersion", JNum 2); ("config", JObj [])]).
Proof.
  intros H.
  specialize (H _ (JObj []) "ns/image" offline start eq_refl eq_refl eq_refl).
  assert (Hc : container_config (JObj [])).
  { left. eexists. split; reflexivity. }
  specialize (H Hc eq_refl). discriminate H.
Qed.

(** C10, amended: for a reference detected as quay, run without
    [QUAY_TOKEN], a manifest that the resolver treats as single-arch (no
    non-empty [manifests]; a non-empty [config] object without media type,
    or with one that names neither a Helm chart nor an artifact) resolves
    to the list of the one string ["unknown"]: the token is [None], the
    guard of the resolver fails on it, and the manifest request is the only
    request of the run.  The blob fetcher itself would send a request
    without [Authorization] header for such a token. *)
Theorem quay_without_token (image repository tag : string)
    (manifest config : json) (w : world) (st : state) :
  detect_registry image = "quay" ->
  parse_image_spec image "quay" = (repository, tag) ->
  environ w "QUAY_TOKEN" = None ->
  single_arch manifest config ->
  http w (sent st) (quay_manifest_request repository tag) = Body manifest ->
  get_quay_auth_token w st = (Ret JNull, st) /\
  (forall st',
     check_architectures manifest (Some "quay") (Some repository) JNull w st'
     = (Ret [JStr "unknown"], st')) /\
  resolve image w st
  = (Ret ("quay", manifest, [JStr "unknown"]),
     sending st (quay_manifest_request repository tag)) /\
  (forall digest,
     blob_request "quay" repository digest JNull
     = Some (GET (blob_url "quay.io" repository digest) [] [])).
Proof.
  intros Hd Hp He Hs Hm.
  assert (Htok : forall s, get_quay_auth_token w s = (Ret JNull, s)).
  { intros s. unfold get_quay_auth_token, bind, getenv, ret. now rewrite He. }
  assert (Hres : forall st',
             check_architectures manifest (Some "quay") (Some repository) JNull w st'
             = (Ret [JStr "unknown"], st')).
  { intros st'. rewrite (single_arch_guard _ _ _ _ _ _ _ Hs).
    cbn [Py.truthy]. now rewrite andb_false_r. }
  split; [apply Htok|]. split; [exact Hres|]. split; [|reflexivity].
  unfold resolve. rewrite Hd. cbn [String.eqb Ascii.eqb Bool.eqb]. rewrite Hp.
  unfold get_manifest. cbn [String.eqb Ascii.eqb Bool.eqb].
  unfold bind at 1. rewrite Htok.
  unfold bind at 1. unfold bind at 1. rewrite Htok.
  unfold get_manifest_quay. cbn [Py.truthy].
  unfold fetch_or_exit, bind at 1. unfold requests_get at 1.
  fold (quay_manifest_request repository tag). rewrite Hm.
  unfold ret at 1. unfold bind. rewrite Hres. reflexivity.
Qed.

Lemma quay_without_token_witness :
  resolve "quay.io/Namespace/Image:1.0" quay_single_arch start
  = (Ret ("quay", single_arch_example, [JStr "unknown"]),
     State [GET (manifest_url "quay.io" "namespace/image" "1.0") [] [accept_header]]
           []).
Proof.
  apply (quay_without_token "quay.io/Namespace/Image:1.0" "namespace/image" "1.0"
           single_arch_example _ quay_single_arch start
           eq_refl eq_refl eq_refl single_arch_example_ok eq_refl).
Defined.

(** The run the specification gives as its own example, [myorg/tool:v1]
    with an index that lists amd64 only, does not do what C1 requires:
    with arm64 missing the script prints its two lines and runs to its
    end, so the status is 0. *)
Lemma exit_reflects_coverage_counterexample :
  ~ exit_reflects_coverage "myorg/tool:v1" amd64_only.
Proof.
  intros H.
  destruct (H _ _ _ _ eq_refl) as [_ H1]; [discriminate|].
  assert (E : exit_status (fst (run "myorg/tool:v1" amd64_only)) = 0%Z)
    by reflexivity.
  rewrite H1 in E; discriminate.
Qed.

Lemma strings_hashable (l : list json) (names : list string) :
  strings l = Ret names -> forallb Py.hashable l = true.
Proof.
  revert names; induction l as [|v l IH]; intros names H; [reflexivity|].
  destruct v; try discriminate. simpl in *.
  destruct (strings l) as [ss| |]; try discriminate. now apply (IH ss).
Qed.

(** C1, where the code departs from it: status 0 is required only when
    both required architectures are resolved, and status 1 when one is
    missing.  The script ends every failure report before this one with
    [sys.exit(1)], but lines 277-279 only print: whenever the resolved
    list is a non-empty list of strings the script runs to its end and the
    status is 0, also after the line of the missing architectures and the
    line of the available ones. *)
Theorem exit_status_after_resolution (image registry : string) (manifest : json)
    (architectures : list json) (names : list string) (w : world) (st st1 : state) :
  resolve image w st = (Ret (registry, manifest, architectures), st1) ->
  architectures <> [] ->
  strings architectures = Ret names ->
  exit_status (fst (main image w st)) = 0%Z /\
  sent (snd (main image w st)) = sent st1 /\
  (missing_targets architectures = [] ->
   printed (snd (main image w st))
   = (printed st1 ++ [(Stdout, SupportsAll image (registry_label registry))])%list) /\
  (missing_targets architectures <> [] ->
   printed (snd (main image w st))
   = (printed st1 ++
      [(Stdout, MissingArchitectures image (registry_label registry)
                  (missing_targets architectures));
       (Stdout, AvailableArchitectures names)])%list).
Proof.
  intros Hr Hne Hs.
  assert (Hmain : main image w st = report image registry manifest architectures w st1).
  { unfold main, bind. now rewrite Hr. }
  rewrite Hmain. clear Hmain Hr. unfold report.
  destruct architectures as [|a rest]; [congruence|].
  rewrite (strings_hashable _ _ Hs).
  destruct (missing_targets (a :: rest)) as [|m ms] eqn:Hm.
  - cbn. repeat split; congruence.
  - unfold bind, print, lift. rewrite Hs. cbn [fst snd exit_status sent printed].
    rewrite <- app_assoc. repeat split; congruence.
Qed.

Lemma exit_status_after_resolution_witness :
  exit_status (fst (main "myorg/tool:v1" amd64_only start)) = 0%Z /\
  printed (snd (main "myorg/tool:v1" amd64_only start))
  = [(Stdout, MissingArchitectures "myorg/tool:v1" "DockerHub" ["arm64"]);
     (Stdout, AvailableArchitectures ["amd64"])].
Proof.
  destruct (exit_status_after_resolution "myorg/tool:v1" "dockerhub"
              (JObj [("schemaVersion", JNum 2); ("manifests", JArr [amd64_entry])])
              [JStr "amd64"] ["amd64"] amd64_only start
              (snd (resolve "myorg/tool:v1" amd64_only start))
              eq_refl ltac:(discriminate) eq_refl)
    as (H0 & _ & _ & Hmiss).
  split; [exact H0|].
  apply Hmiss. discriminate.
Defined.

End Script.

(** * Further properties of the script *)

(** ** Reference parser: shape of the result *)

Section ParserShape.

Lemma lower_char_idem (a : ascii) : lower_char (lower_char a) = lower_char a.
Proof. destruct a as [[] [] [] [] [] [] [] []]; reflexivity. Qed.

Lemma lower_char_colon (a : ascii) :
  Ascii.eqb (lower_char a) ":" = Ascii.eqb a ":".
Proof. destruct a as [[] [] [] [] [] [] [] []]; reflexivity. Qed.

Lemma lower_char_slash (a : ascii) :
  Ascii.eqb (lower_char a) "/" = Ascii.eqb a "/".
Proof. destruct a as [[] [] [] [] [] [] [] []]; reflexivity. Qed.

Lemma lower_idem (s : string) : lower (lower s) = lower s.
Proof.
  induction s as [|a s IH]; simpl; [reflexivity|].
  now rewrite lower_char_idem, IH.
Qed.

Lemma has_colon_lower (s : string) : has_char ":" (lower s) = has_char ":" s.
Proof.
  induction s as [|a s IH]; simpl; [reflexivity|].
  now rewrite lower_char_colon, IH.
Qed.

Lemma has_slash_lower (s : string) : has_char "/" (lower s) = has_char "/" s.
Proof.
  induction s as [|a s IH]; simpl; [reflexivity|].
  now rewrite lower_char_slash, IH.
Qed.

(** the steps after the prefix has been dealt with *)
Lemma parse_image_spec_tail (image registry : string) :
  exists stripped,
    parse_image_spec image registry =
    (lower (if (registry =? "dockerhub")
               && negb (has_char "/" (if has_char ":" stripped
                                      then before ":" stripped else stripped))
            then "library/" ++ (if has_char ":" stripped
                                then before ":" stripped else stripped)
            else (if has_char ":" stripped then before ":" stripped else stripped)),
     if has_char ":" stripped then after ":" stripped else "latest").
Proof.
  unfold parse_image_spec.
  match goal with |- context [has_char ":" ?s] => exists s; generalize s end.
  intros s. now destruct (has_char ":" s).
Qed.

Lemma head_no_colon (s : string) :
  has_char ":" (if has_char ":" s then before ":" s else s) = false.
Proof.
  destruct (has_char ":" s) eqn:E; [apply before_clean|exact E].
Qed.

(** The repository never contains a [':']: whatever the registry string,
    the reference is cut at its first colon and nothing that is put in
    front of it has one. *)
Theorem parse_repository_no_colon (image registry : string) :
  ~ occurs ":" (fst (parse_image_spec image registry)).
Proof.
  apply has_char_false_iff.
  destruct (parse_image_spec_tail image registry) as [s ->]. cbn [fst].
  rewrite has_colon_lower.
  destruct (_ && _).
  - rewrite has_char_app. now rewrite head_no_colon.
  - apply head_no_colon.
Qed.

(** A dockerhub repository always has a namespace: it contains a ['/'],
    its own or the one of ["library/"]. *)
Theorem parse_dockerhub_namespaced (image : string) :
  occurs "/" (fst (parse_image_spec image "dockerhub")).
Proof.
  apply has_char_iff.
  destruct (parse_image_spec_tail image "dockerhub") as [s ->]. cbn [fst].
  rewrite has_slash_lower, String.eqb_refl. cbn [andb].
  generalize (if has_char ":" s then before ":" s else s). intros r.
  destruct (has_char "/" r) eqn:E; cbn [negb]; [exact E|reflexivity].
Qed.

Lemma lower_char_not_upper (a : ascii) :
  has_char (lower_char a) upper_letters = false.
Proof. destruct a as [[] [] [] [] [] [] [] []]; reflexivity. Qed.

Lemma lower_no_upper (c : ascii) (s : string) :
  has_char c upper_letters = true -> has_char c (lower s) = false.
Proof.
  intros Hc. induction s as [|a s IH]; simpl; [reflexivity|].
  rewrite IH, orb_false_r.
  destruct (Ascii.eqb_spec (lower_char a) c) as [E|E]; [|reflexivity].
  rewrite <- E, lower_char_not_upper in Hc. discriminate.
Qed.

(** The repository is in lower case for every reference and registry
    string: none of the letters [A]-[Z] occurs in it. *)
Theorem parse_repository_lower (image registry : string) (c : ascii) :
  occurs c upper_letters ->
  ~ occurs c (fst (parse_image_spec image registry)).
Proof.
  intros Hc. apply has_char_iff in Hc. apply has_char_false_iff.
  destruct (parse_image_spec_tail image registry) as [s ->]. cbn [fst].
  now apply lower_no_upper.
Qed.

Lemma parse_repository_lower_witness :
  occurs "N" upper_letters /\
  ~ occurs "N" (fst (parse_image_spec "GHCR.IO/Owner/NGINX:Latest" "ghcr")).
Proof.
  assert (H : occurs "N" upper_letters) by (now apply has_char_iff).
  split; [exact H|].
  exact (parse_repository_lower "GHCR.IO/Owner/NGINX:Latest" "ghcr" "N" H).
Defined.

(** Writing a reference and parsing it back: for a supported registry, a
    repository without [':'] (with a ['/'] when the registry is dockerhub)
    written after the host prefix, with or without [":tag"], is parsed to
    that repository in lower case and that tag, ["latest"] without one. *)
Theorem parse_round_trip (registry host repository tag : string) :
  host_of registry host ->
  ~ occurs ":" repository ->
  (registry = "dockerhub" -> occurs "/" repository) ->
  parse_image_spec (host ++ repository ++ String ":" tag) registry
  = (lower repository, tag) /\
  parse_image_spec (host ++ repository) registry = (lower repository, "latest").
Proof.
  intros H Hc Hs. apply has_char_false_iff in Hc.
  assert (Hlib : (registry =? "dockerhub") && negb (has_char "/" repository) = false).
  { destruct (String.eqb_spec registry "dockerhub") as [E|E]; [|reflexivity].
    apply Hs, has_char_iff in E. now rewrite E. }
  rewrite !(parse_image_spec_eq _ _ _ H). cbv zeta.
  rewrite !startswith_app, !drop_app. split.
  - rewrite has_char_app, Hc. cbn [has_char orb].
    rewrite Ascii.eqb_refl. cbn [orb].
    now rewrite before_app, after_app, Hlib.
  - now rewrite Hc, Hlib.
Qed.

Lemma parse_round_trip_witness :
  parse_image_spec "quay.io/Namespace/Image:V1" "quay" = ("namespace/image", "V1") /\
  parse_image_spec "quay.io/Namespace/Image" "quay" = ("namespace/image", "latest").
Proof.
  apply (parse_round_trip "quay" "quay.io/" "Namespace/Image" "V1").
  - constructor.
  - apply has_char_false_iff. reflexivity.
  - discriminate.
Defined.

(** The host prefix is optional: a reference that does not start with the
    registry's prefix is parsed as the same reference with the prefix in
    front of it. *)
Theorem parse_prefix_optional (registry host image : string) :
  host_of registry host ->
  ~ has_prefix host image ->
  parse_image_spec (host ++ image) registry = parse_image_spec image registry.
Proof.
  intros H Hn. rewrite !(parse_image_spec_eq _ _ _ H). cbv zeta.
  rewrite startswith_app, drop_app.
  destruct (startswith image host) eqn:E; [|reflexivity].
  apply startswith_iff in E. contradiction.
Qed.

Lemma parse_prefix_optional_witness :
  parse_image_spec "docker.io/nginx:1.25" "dockerhub"
  = parse_image_spec "nginx:1.25" "dockerhub".
Proof.
  apply (parse_prefix_optional "dockerhub" "docker.io/" "nginx:1.25").
  - constructor.
  - intros C. apply startswith_iff in C. discriminate.
Defined.

End ParserShape.

(** ** Reporter: the comparison with the required set *)

Section Coverage.

Lemma is_str_in (t : string) (l : list json) :
  existsb (Py.is_str t) l = true <-> In (JStr t) l.
Proof.
  rewrite existsb_exists. split.
  - intros (v & Hin & Hv). destruct v; try discriminate.
    apply String.eqb_eq in Hv. now subst.
  - intros H. exists (JStr t). split; [exact H|]. apply String.eqb_refl.
Qed.

Lemma missing_targets_nil_iff (architectures : list json) :
  missing_targets architectures = [] <->
  In (JStr "amd64") architectures /\ In (JStr "arm64") architectures.
Proof.
  unfold missing_targets, TARGET_ARCHITECTURES. cbn [filter].
  rewrite <- !is_str_in.
  destruct (existsb (Py.is_str "amd64") architectures),
    (existsb (Py.is_str "arm64") architectures); cbn;
    split; try tauto; try discriminate; intros [? ?]; discriminate.
Qed.

(** For a non-empty resolved list whose entries can all be hashed, the
    reporter ends normally with the success line as its only output
    exactly when ["amd64"] and ["arm64"] both occur among the entries as
    strings, wherever and however often, and whatever else is listed. *)
Theorem success_line_iff_both_targets (image registry : string) (manifest : json)
    (architectures : list json) (w : world) (st : state) :
  architectures <> [] ->
  forallb Py.hashable architectures = true ->
  (report image registry manifest architectures w st
   = (Ret tt, State (sent st)
                (printed st ++ [(Stdout, SupportsAll image (registry_label registry))]))
   <->
   In (JStr "amd64") architectures /\ In (JStr "arm64") architectures).
Proof.
  intros Hne Hh. rewrite <- missing_targets_nil_iff.
  unfold report. destruct architectures as [|a rest]; [congruence|].
  rewrite Hh.
  destruct (missing_targets (a :: rest)) as [|m ms] eqn:Hm.
  - split; [reflexivity|]. intros _. reflexivity.
  - split; [|discriminate]. intros H. exfalso.
    unfold bind, print, lift in H.
    destruct (strings (a :: rest)) as [names| |]; try discriminate.
    injection H as H. rewrite <- app_assoc in H.
    apply app_inv_head in H. discriminate.
Qed.

Lemma success_line_iff_both_targets_witness :
  report "nginx" "dockerhub" JNull
    [JStr "arm64"; JStr "s390x"; JNum 7; JStr "amd64"; JStr "arm64"] offline start
  = (Ret tt, State [] [(Stdout, SupportsAll "nginx" "DockerHub")]).
Proof.
  apply (success_line_iff_both_targets "nginx" "dockerhub" JNull
           [JStr "arm64"; JStr "s390x"; JNum 7; JStr "amd64"; JStr "arm64"]
           offline start).
  - discriminate.
  - reflexivity.
  - split; simpl; tauto.
Defined.

End Coverage.

(** ** Architecture resolver: errors and footprint *)

Create HintDb pure.

Section ResolverFootprint.

Lemma get_or_no_exit (v : json) (k : string) (d : json) : no_exit (Py.get_or v k d).
Proof. now destruct v. Qed.

Lemma get_no_exit (v : json) (k : string) : no_exit (Py.get v k).
Proof. apply get_or_no_exit. Qed.

Lemma getitem_no_exit (v : json) (k : string) : no_exit (Py.getitem v k).
Proof. destruct v; simpl; auto. now destruct (Py.lookup k fields). Qed.

Lemma str_in_no_exit (s : string) (v : json) : no_exit (Py.str_in s v).
Proof. now destruct v. Qed.

Lemma iter_no_exit (v : json) : no_exit (Py.iter v).
Proof. now destruct v. Qed.

Lemma platform_architectures_no_exit (ms : list json) :
  no_exit (platform_architectures ms).
Proof.
  induction ms as [|m rest IH]; simpl; [exact I|].
  pose proof (str_in_no_exit "platform" m) as H1.
  destruct (Py.str_in "platform" m) as [[|]| |]; simpl; auto.
  pose proof (getitem_no_exit m "platform") as H2.
  destruct (Py.getitem m "platform") as [p| |]; simpl; auto.
  pose proof (getitem_no_exit p "architecture") as H3.
  destruct (Py.getitem p "architecture") as [a| |]; simpl; auto.
  now destruct (platform_architectures rest).
Qed.

Lemma strings_no_exit (l : list json) : no_exit (strings l).
Proof.
  induction l as [|v l IH]; simpl; [exact I|].
  destruct v; simpl; auto. now destruct (strings l).
Qed.

#[local] Hint Resolve get_or_no_exit get_no_exit getitem_no_exit str_in_no_exit
  iter_no_exit platform_architectures_no_exit strings_no_exit : pure.

(** the two ways [get_config_blob] can go *)
Lemma get_config_blob_cases (registry repository : string) (digest token : json)
    (w : world) (st : state) :
  (blob_request registry repository digest token = None /\
   get_config_blob registry repository digest token w st = (Ret (JObj []), st)) \/
  (exists req,
     blob_request registry repository digest token = Some req /\
     get_config_blob registry repository digest token w st
     = (Ret (match http w (sent st) req with
             | Body b => b
             | RequestException => JObj []
             end), sending st req)).
Proof.
  unfold get_config_blob.
  destruct (blob_request registry repository digest token) as [req|].
  - right. exists req. split; [reflexivity|].
    unfold bind, requests_get, ret, sending. now destruct (http w (sent st) req).
  - now left.
Qed.

(** The blob fetcher cannot fail: for every registry, repository, digest,
    token and network it returns a value and prints nothing; for a
    registry it does not know it returns [{}] without a request, and a
    failed request gives [{}] as well. *)
Theorem get_config_blob_total (registry repository : string) (digest token : json)
    (w : world) (st : state) :
  (exists blob, fst (get_config_blob registry repository digest token w st) = Ret blob) /\
  printed (snd (get_config_blob registry repository digest token w st)) = printed st /\
  (registry <> "dockerhub" -> registry <> "ghcr" -> registry <> "quay" ->
   get_config_blob registry repository digest token w st = (Ret (JObj []), st)) /\
  (forall req,
     blob_request registry repository digest token = Some req ->
     http w (sent st) req = RequestException ->
     get_config_blob registry repository digest token w st
     = (Ret (JObj []), sending st req)).
Proof.
  destruct (get_config_blob_cases registry repository digest token w st)
    as [[Hn E]|(req & Hreq & E)]; rewrite E; cbn [fst snd].
  - repeat split; eauto. intros req Hreq. congruence.
  - split; [eauto|]. split; [reflexivity|]. split.
    + intros H1 H2 H3. unfold blob_request in Hreq.
      apply String.eqb_neq in H1, H2, H3. rewrite H1, H2, H3 in Hreq. discriminate.
    + intros req' Hreq' Hf. assert (req' = req) by congruence. subst req'.
      now rewrite Hf.
Qed.

Lemma get_config_blob_total_witness :
  get_config_blob "gcr" "project/image" (JStr "sha256:abc") (JStr "t") arm64_blobs start
  = (Ret (JObj []), start).
Proof.
  apply (get_config_blob_total "gcr" "project/image" (JStr "sha256:abc") (JStr "t")
           arm64_blobs start); discriminate.
Defined.

(** one step of a case analysis that follows the resolver *)
Ltac resolver_step :=
  match goal with
  | |- context [match ?r with Ret _ => _ | Exit _ => _ | Raise _ => _ end] =>
      let H := fresh "Hpure" in
      assert (H : no_exit r) by auto with pure;
      destruct r; [ | destruct H | ]
  | |- context [if ?b then _ else _] => destruct b eqn:?
  | |- context [match ?o with Some _ => _ | None => _ end] => destruct o
  end.

(** The footprint of the resolver, for every manifest and every network:
    it never ends the process, prints nothing, and sends nothing or the
    one blob request of the registry and repository it was given. *)
Theorem check_architectures_footprint (manifest : json)
    (registry repository : option string) (token : json) (w : world) (st : state) :
  no_exit (fst (check_architectures manifest registry repository token w st)) /\
  printed (snd (check_architectures manifest registry repository token w st))
  = printed st /\
  (snd (check_architectures manifest registry repository token w st) = st \/
   exists reg repo digest req,
     registry = Some reg /\ repository = Some repo /\
     blob_request reg repo digest token = Some req /\
     snd (check_architectures manifest registry repository token w st)
     = sending st req).
Proof.
  unfold check_architectures, bind, lift, ret.
  repeat (cbv beta iota; resolver_step); cbn [fst snd];
    try (repeat split; auto with pure; fail).
  all: match goal with
       | |- context [get_config_blob ?a ?b ?c ?d ?e ?f] =>
           destruct (get_config_blob_cases a b c d e f)
             as [[Hn ->]|(req & Hreq & ->)]
       end.
  all: cbv beta iota; repeat (cbv beta iota; resolver_step); cbn [fst snd];
    repeat split; auto; right; eauto 10.
Qed.

(** Without a registry, a repository or a token that Python takes for
    true, the resolver leaves the network alone, whatever the manifest. *)
Theorem check_architectures_without_credentials (manifest : json)
    (registry repository : option string) (token : json) (w : world) (st : state) :
  Py.str_truthy registry && Py.str_truthy repository && Py.truthy token = false ->
  snd (check_architectures manifest registry repository token w st) = st.
Proof.
  intros H. unfold check_architectures, bind, lift, ret.
  destruct registry as [reg|], repository as [repo|];
    repeat (cbv beta iota; resolver_step); cbn [fst snd];
    try reflexivity; congruence.
Qed.

Lemma check_architectures_without_credentials_witness :
  snd (check_architectures single_arch_example (Some "ghcr") (Some "owner/image")
         (JStr "") arm64_blobs start) = start.
Proof.
  apply (check_architectures_without_credentials single_arch_example
           (Some "ghcr") (Some "owner/image") (JStr "") arm64_blobs start).
  reflexivity.
Defined.

(** When the [manifests] field is absent or empty the resolver reports at
    most one architecture. *)
Theorem config_path_at_most_one (fields : list (string * json))
    (registry repository : option string) (token : json) (w : world) (st : state) :
  Py.truthy (field fields "manifests") = false ->
  match fst (check_architectures (JObj fields) registry repository token w st) with
  | Ret architectures => length architectures <= 1
  | _ => True
  end.
Proof.
  intros H.
  change (at_most_one
            (fst (check_architectures (JObj fields) registry repository token w st))).
  unfold check_architectures.
  rewrite get_field, bind_lift. cbv beta. rewrite H.
  unfold bind, lift, ret.
  repeat (cbv beta iota; resolver_step);
    try (unfold unknown; cbn; auto; lia).
  all: match goal with
       | |- context [get_config_blob ?a ?b ?c ?d ?e ?f] =>
           destruct (get_config_blob_cases a b c d e f)
             as [[Hn ->]|(req & Hreq & ->)]
       end.
  all: repeat (cbv beta iota; resolver_step); unfold unknown; cbn; auto.
Qed.

Lemma config_path_at_most_one_witness :
  match fst (check_architectures single_arch_example (Some "quay") (Some "ns/image")
               (JStr "t") arm64_blobs start) with
  | Ret architectures => length architectures <= 1
  | _ => True
  end.
Proof.
  apply (config_path_at_most_one
           [("schemaVersion", JNum 2);
            ("config", JObj [("mediaType", JStr oci_config);
                             ("digest", JStr "sha256:abc")])]).
  reflexivity.
Defined.

Lemma platform_architectures_app (good archs rest : list json) :
  architectures_of good archs ->
  platform_architectures (good ++ rest)
  = rbind (platform_architectures rest) (fun r => Ret (archs ++ r)%list).
Proof.
  induction 1 as [|e l archs (f & -> & Hf) _ IH
                  |e p a l archs (f & -> & Hf) (pf & -> & Hp) _ IH]; simpl.
  - now destruct (platform_architectures rest).
  - now rewrite Hf.
  - rewrite Hf. simpl. rewrite Hp. simpl. rewrite IH.
    now destruct (platform_architectures rest).
Qed.

(** An index entry whose [platform] has no [architecture] is not skipped:
    when the entries before it are in order, the lookup raises [KeyError],
    which nothing catches, and no request has been sent. *)
Theorem index_entry_without_architecture (fields : list (string * json))
    (good archs rest : list json) (e p : json)
    (registry repository : option string) (token : json) (w : world) (st : state) :
  Py.lookup "manifests" fields = Some (JArr (good ++ e :: rest)) ->
  architectures_of good archs ->
  has_field e "platform" p ->
  lacks_field p "architecture" ->
  check_architectures (JObj fields) registry repository token w st
  = (Raise KeyError, st).
Proof.
  intros Hm Hg (f & -> & Hf) (pf & -> & Hp).
  unfold check_architectures. rewrite get_field, bind_lift. cbv beta.
  rewrite (field_lookup _ _ _ Hm).
  assert (Ht : Py.truthy (JArr (good ++ JObj f :: rest)) = true)
    by (now destruct good).
  rewrite Ht. cbn [Py.iter]. rewrite bind_lift. unfold lift.
  rewrite (platform_architectures_app _ _ _ Hg). simpl.
  rewrite Hf. simpl. now rewrite Hp.
Qed.

Lemma index_entry_without_architecture_witness :
  check_architectures
    (JObj [("manifests", JArr [amd64_entry; JObj [("platform", JObj [("os", JStr "linux")])]])])
    None None JNull offline start
  = (Raise KeyError, start).
Proof.
  apply (index_entry_without_architecture _ [amd64_entry] [JStr "amd64"] []
           (JObj [("platform", JObj [("os", JStr "linux")])])
           (JObj [("os", JStr "linux")])).
  - reflexivity.
  - eapply arch_take; [eexists; split; reflexivity | eexists; split; reflexivity |].
    constructor.
  - eexists. split; reflexivity.
  - eexists. split; reflexivity.
Defined.

End ResolverFootprint.

(** ** The run: output and exit status *)

Section RunDiscipline.

#[local] Hint Resolve get_or_no_exit get_no_exit getitem_no_exit str_in_no_exit
  iter_no_exit platform_architectures_no_exit strings_no_exit : pure.

Lemma disciplined_ret {A : Type} (a : A) : disciplined (ret a).
Proof.
  intros w st. exists [], []. cbn. rewrite !app_nil_r.
  repeat split; auto. constructor.
Qed.

Lemma disciplined_lift {A : Type} (r : result A) : no_exit r -> disciplined (lift r).
Proof.
  intros H w st. exists [], []. cbn. rewrite !app_nil_r.
  repeat split; auto; [constructor|]. now destruct r.
Qed.

Lemma disciplined_getenv (name : string) : disciplined (getenv name).
Proof.
  intros w st. exists [], []. cbn. rewrite !app_nil_r.
  repeat split; auto. constructor.
Qed.

Lemma disciplined_requests_get (req : request) : disciplined (requests_get req).
Proof.
  intros w st. exists [req], []. cbn. rewrite !app_nil_r.
  repeat split; auto. constructor.
Qed.

Lemma disciplined_fail {A : Type} (msg : message) :
  disciplined (A := A) (print Stderr msg ;;; sys_exit 1).
Proof.
  intros w st. exists [], [(Stderr, msg)]. cbn. rewrite !app_nil_r.
  repeat split; auto; [repeat constructor|discriminate].
Qed.

Lemma disciplined_fail2 {A : Type} (msg1 msg2 : message) :
  disciplined (A := A) (print Stderr msg1 ;;; print Stderr msg2 ;;; sys_exit 1).
Proof.
  intros w st. exists [], [(Stderr, msg1); (Stderr, msg2)]. cbn.
  rewrite !app_nil_r, <- app_assoc.
  repeat split; auto; [repeat constructor|discriminate].
Qed.

Lemma disciplined_bind {A B : Type} (m : M A) (k : A -> M B) :
  disciplined m -> (forall a, disciplined (k a)) -> disciplined (bind m k).
Proof.
  intros Hm Hk w st. unfold bind.
  destruct (Hm w st) as (reqs1 & errs1 & Hs & Hp & He & Hr).
  destruct (m w st) as [r st1]. cbn [fst snd] in *.
  destruct r as [a|c|e].
  - subst errs1. rewrite app_nil_r in Hp.
    destruct (Hk a w st1) as (reqs2 & errs2 & Hs2 & Hp2 & He2 & Hr2).
    exists (reqs1 ++ reqs2)%list, errs2.
    rewrite Hs2, Hp2, Hs, Hp, app_assoc. auto.
  - exists reqs1, errs1. auto.
  - exists reqs1, errs1. auto.
Qed.

(** follows the structure of a computation built from the steps above *)
Ltac discipline :=
  repeat first
    [ apply disciplined_ret
    | apply disciplined_fail
    | apply disciplined_fail2
    | apply disciplined_requests_get
    | apply disciplined_getenv
    | apply disciplined_lift; solve [auto with pure]
    | apply disciplined_bind; [|intros ?]
    | match goal with
      | |- disciplined (if ?b then _ else _) => destruct b
      | |- disciplined (match ?x with _ => _ end) => destruct x
      end ].

Lemma get_dockerhub_auth_token_disciplined (repository : string) :
  disciplined (get_dockerhub_auth_token repository).
Proof. unfold get_dockerhub_auth_token. discipline. Qed.

Lemma get_ghcr_auth_token_disciplined (repository : string) :
  disciplined (get_ghcr_auth_token repository).
Proof. unfold get_ghcr_auth_token. discipline. Qed.

Lemma get_quay_auth_token_disciplined : disciplined get_quay_auth_token.
Proof. unfold get_quay_auth_token. discipline. Qed.

Lemma fetch_or_exit_disciplined (req : request) : disciplined (fetch_or_exit req).
Proof. unfold fetch_or_exit. discipline. Qed.

Lemma get_config_blob_disciplined (registry repository : string)
    (digest token : json) :
  disciplined (get_config_blob registry repository digest token).
Proof. unfold get_config_blob. discipline. Qed.

Lemma check_architectures_disciplined (manifest : json)
    (registry repository : option string) (token : json) :
  disciplined (check_architectures manifest registry repository token).
Proof.
  unfold check_architectures. discipline.
  all: apply get_config_blob_disciplined.
Qed.

Lemma get_manifest_disciplined (image registry repository tag : string) :
  disciplined (get_manifest image registry repository tag).
Proof.
  unfold get_manifest, get_manifest_dockerhub, get_manifest_ghcr, get_manifest_quay.
  discipline;
    first [ apply get_dockerhub_auth_token_disciplined
          | apply get_ghcr_auth_token_disciplined
          | apply get_quay_auth_token_disciplined
          | apply fetch_or_exit_disciplined ].
Qed.

Lemma resolve_disciplined (image : string) : disciplined (resolve image).
Proof.
  unfold resolve.
  destruct (parse_image_spec image (detect_registry image)) as [repository tag].
  discipline;
    first [ apply get_dockerhub_auth_token_disciplined
          | apply get_ghcr_auth_token_disciplined
          | apply get_quay_auth_token_disciplined
          | apply get_manifest_disciplined
          | apply get_config_blob_disciplined
          | apply check_architectures_disciplined ].
Qed.

(** Up to the resolved architectures the script only adds requests and
    writes to standard error alone; it writes exactly when it ends the
    process through [sys.exit], always with status 1 and after at least
    one line, and writes nothing when it goes on or raises. *)
Theorem resolve_writes_only_when_exiting (image : string) (w : world) (st : state) :
  exists reqs errs,
    sent (snd (resolve image w st)) = (sent st ++ reqs)%list /\
    printed (snd (resolve image w st)) = (printed st ++ errs)%list /\
    stderr_only errs /\
    match fst (resolve image w st) with
    | Exit code => code = 1%Z /\ errs <> []
    | _ => errs = []
    end.
Proof. exact (resolve_disciplined image w st). Qed.

(** one step of a case analysis that follows the reporter *)
Ltac report_step :=
  match goal with
  | |- context [match ?r with Ret _ => _ | Exit _ => _ | Raise _ => _ end] =>
      let H := fresh "Hpure" in
      assert (H : no_exit r) by auto with pure;
      destruct r; [ | destruct H | ]
  | |- context [if ?b then _ else _] => destruct b eqn:?
  | |- context [match ?l with [] => _ | _ :: _ => _ end] => destruct l eqn:?
  end.

Lemma report_exits_with_one (image registry : string) (manifest : json)
    (architectures : list json) (w : world) (st : state) :
  exits_with_one (fst (report image registry manifest architectures w st)).
Proof.
  unfold report, bind, lift, print, sys_exit, ret.
  destruct architectures as [|a rest];
    repeat (cbv beta iota; report_step); cbn; auto.
Qed.

(** Whatever the reference, the environment and the answers of the
    network, the exit status of the script is 0 or 1. *)
Theorem main_exit_status (image : string) (w : world) (st : state) :
  exit_status (fst (main image w st)) = 0%Z \/
  exit_status (fst (main image w st)) = 1%Z.
Proof.
  unfold main, bind.
  destruct (resolve_disciplined image w st) as (_ & errs & _ & _ & _ & Hr).
  destruct (resolve image w st) as [r st1]. cbn [fst] in Hr.
  destruct r as [[[registry manifest] architectures]|code|e].
  - pose proof (report_exits_with_one image registry manifest architectures w st1) as H.
    destruct (report image registry manifest architectures w st1) as [r st2].
    cbn [fst] in *. destruct r; cbn in *; auto.
  - destruct Hr as [-> _]. now right.
  - now right.
Qed.

(** An empty resolution always ends with status 1: the reporter sends
    nothing, writes to standard error alone, and either calls
    [sys.exit(1)] or dies of an exception on the way to it. *)
Theorem empty_resolution_fails (image registry : string) (manifest : json)
    (w : world) (st st1 : state) :
  resolve image w st = (Ret (registry, manifest, []), st1) ->
  exit_status (fst (main image w st)) = 1%Z /\
  sent (snd (main image w st)) = sent st1 /\
  exists errs,
    printed (snd (main image w st)) = (printed st1 ++ errs)%list /\
    stderr_only errs.
Proof.
  intros Hr.
  assert (Hmain : main image w st = report image registry manifest [] w st1).
  { unfold main, bind. now rewrite Hr. }
  rewrite Hmain. clear Hmain Hr.
  unfold report, bind, lift, print, sys_exit, ret.
  repeat (cbv beta iota; report_step); cbn [fst snd exit_status sent printed];
    (split; [reflexivity|]); (split; [reflexivity|]);
    first [ exists []; rewrite app_nil_r; split; [reflexivity|constructor]
          | eexists; split; [reflexivity|repeat constructor] ].
Qed.

Lemma empty_resolution_fails_witness :
  exit_status (fst (main "quay.io/ns/chart:1" helm_only start)) = 1%Z.
Proof.
  refine (proj1 (empty_resolution_fails "quay.io/ns/chart:1" "quay"
                   (JObj [("config", JObj [("mediaType", JStr helm_config)])])
                   helm_only start
                   (snd (resolve "quay.io/ns/chart:1" helm_only start)) eq_refl)).
Defined.

(** What the reporter says of an empty resolution, for a manifest whose
    [config] media type is the string [mt] (empty when there is none): a
    Helm chart when [mt] contains ["helm"], also when it contains
    ["artifact"] as well; otherwise an OCI artifact when [mt] contains
    ["artifact"] or the manifest has a non-empty [artifactType]; otherwise
    that no architectures were found.  In each case the one line goes to
    standard error and the process ends with status 1. *)
Theorem report_of_empty_resolution (image registry : string)
    (fields : list (string * json)) (mt : string) (w : world) (st : state) :
  media_type_of fields mt ->
  (substring_of "helm" mt ->
   report image registry (JObj fields) [] w st
   = (Exit 1, State (sent st)
                (printed st ++ [(Stderr, IsHelmChart image (registry_label registry))]))) /\
  (~ substring_of "helm" mt ->
   substring_of "artifact" mt \/ Py.truthy (field fields "artifactType") = true ->
   report image registry (JObj fields) [] w st
   = (Exit 1, State (sent st)
                (printed st ++ [(Stderr, IsOciArtifact image (registry_label registry))]))) /\
  (~ substring_of "helm" mt -> ~ substring_of "artifact" mt ->
   Py.truthy (field fields "artifactType") = false ->
   report image registry (JObj fields) [] w st
   = (Exit 1, State (sent st) (printed st ++ [(Stderr, NoArchitecturesFound image)]))).
Proof.
  intros Hmt.
  assert (Hct : rbind (Py.get_or (JObj fields) "config" (JObj []))
                  (fun config => Py.get_or config "mediaType" (JStr ""))
                = Ret (JStr mt)).
  { cbn [Py.get_or rbind].
    destruct Hmt as [[-> ->]|(config & -> & [[(cf & -> & Hl) ->]|(cf & -> & Hl)])];
      cbn [Py.get_or]; try rewrite Hl; reflexivity. }
  unfold report. rewrite !get_field.
  cbn [Py.get_or rbind] in Hct.
  unfold bind at 1. unfold lift at 1. cbn [Py.get_or].
  destruct (Py.get_or _ "mediaType" (JStr "")) as [ct| |] eqn:E; try discriminate.
  injection Hct as ->.
  unfold bind, lift, print, sys_exit, ret. rewrite E. cbn [Py.str_in].
  rewrite <- !contains_false_iff, <- !contains_iff.
  destruct (contains "helm" mt), (contains "artifact" mt),
    (Py.truthy (field fields "artifactType"));
    repeat split; intros; try reflexivity; try discriminate;
    try (exfalso; tauto); intuition discriminate.
Qed.

Lemma report_of_empty_resolution_witness :
  report "ghcr.io/o/c:1" "ghcr"
    (JObj [("config", JObj [("mediaType", JStr helm_config)])]) [] offline start
  = (Exit 1, State [] [(Stderr, IsHelmChart "ghcr.io/o/c:1" "GHCR")]).
Proof.
  apply (report_of_empty_resolution "ghcr.io/o/c:1" "ghcr"
           [("config", JObj [("mediaType", JStr helm_config)])] helm_config
           offline start).
  - right. eexists. split; [reflexivity|]. right. eexists. split; reflexivity.
  - apply contains_iff. reflexivity.
Defined.

End RunDiscipline.

(** ** The run: what is sent, and when it stops *)

Section RunTraces.

Lemma registry_name_before (image : string) :
  (if has_char "/" image then before "/" image else image) = before "/" image.
Proof.
  destruct (has_char "/" image) eqn:E; [reflexivity|]. now rewrite before_all.
Qed.

(** For a reference of an unsupported registry the script sends nothing:
    it names the first segment of the reference and the supported
    registries on standard error and ends with status 1. *)
Theorem unsupported_registry_run (image : string) (w : world) (st : state) :
  detect_registry image = "unsupported" ->
  main image w st
  = (Exit 1,
     State (sent st)
           (printed st ++ [(Stderr, UnsupportedRegistry (before "/" image));
                           (Stderr, SupportedRegistries)])).
Proof.
  intros H. unfold main, resolve. rewrite H. cbn [String.eqb Ascii.eqb Bool.eqb].
  rewrite registry_name_before.
  unfold bind, print, sys_exit. cbn. now rewrite <- app_assoc.
Qed.

Lemma unsupported_registry_run_witness :
  main "gcr.io/project/image:1" arm64_blobs start
  = (Exit 1, State [] [(Stderr, UnsupportedRegistry "gcr.io");
                       (Stderr, SupportedRegistries)]).
Proof.
  apply (unsupported_registry_run "gcr.io/project/image:1" arm64_blobs start).
  reflexivity.
Defined.

Lemma resolve_supported (image repository tag : string) :
  detect_registry image <> "unsupported" ->
  parse_image_spec image (detect_registry image) = (repository, tag) ->
  resolve image
  = (token <-
       (if detect_registry image =? "dockerhub"
        then get_dockerhub_auth_token repository
        else if detect_registry image =? "ghcr" then get_ghcr_auth_token repository
        else if detect_registry image =? "quay" then get_quay_auth_token
        else ret JNull) ;;
     manifest <- get_manifest image (detect_registry image) repository tag ;;
     architectures <-
       check_architectures manifest (Some (detect_registry image))
         (Some repository) token ;;
     ret (detect_registry image, manifest, architectures)).
Proof.
  intros Hs Hp. unfold resolve.
  apply String.eqb_neq in Hs. now rewrite Hs, Hp.
Qed.

Lemma get_dockerhub_auth_token_run (repository : string) (w : world) (st : state) :
  get_dockerhub_auth_token repository w st
  = match http w (sent st) (dockerhub_token_request repository) with
    | Body b => (Py.getitem b "token", sending st (dockerhub_token_request repository))
    | RequestException =>
        (Exit 1, State (sent st ++ [dockerhub_token_request repository])
                       (printed st ++ [(Stderr, AuthTokenFailed)]))
    end.
Proof.
  unfold get_dockerhub_auth_token, bind, requests_get, lift, print, sys_exit, sending.
  destruct (http w (sent st) _); cbn; [reflexivity|].
  now destruct (Py.getitem b "token").
Qed.




(** A failing token request is fatal for a dockerhub reference: after
    that one request the script writes a line to standard error and ends
    with status 1; the manifest is never asked for. *)
Theorem dockerhub_token_failure (image repository tag : string)
    (w : world) (st : state) :
  detect_registry image = "dockerhub" ->
  parse_image_spec image "dockerhub" = (repository, tag) ->
  http w (sent st) (dockerhub_token_request repository) = RequestException ->
  main image w st
  = (Exit 1, State (sent st ++ [dockerhub_token_request repository])
                   (printed st ++ [(Stderr, AuthTokenFailed)])).
Proof.
  intros Hd Hp H1. unfold main.
  rewrite (resolve_supported image repository tag);
    [|rewrite Hd; discriminate|now rewrite Hd].
  rewrite Hd. cbn [String.eqb Ascii.eqb Bool.eqb].
  unfold bind. now rewrite get_dockerhub_auth_token_run, H1.
Qed.

Lemma dockerhub_token_failure_witness :
  main "myorg/tool:v1" offline start
  = (Exit 1, State [dockerhub_token_request "myorg/tool"] [(Stderr, AuthTokenFailed)]).
Proof.
  exact (dockerhub_token_failure "myorg/tool:v1" "myorg/tool" "v1" offline start
           eq_refl eq_refl eq_refl).
Defined.

(** A token answer that is a JSON object without a [token] is not caught
    by the [except] clause: for a dockerhub reference the script dies of
    [KeyError] after that one request, having printed nothing. *)
Theorem dockerhub_token_missing (image repository tag : string)
    (fields : list (string * json)) (w : world) (st : state) :
  detect_registry image = "dockerhub" ->
  parse_image_spec image "dockerhub" = (repository, tag) ->
  http w (sent st) (dockerhub_token_request repository) = Body (JObj fields) ->
  Py.lookup "token" fields = None ->
  main image w st = (Raise KeyError, sending st (dockerhub_token_request repository)).
Proof.
  intros Hd Hp H1 Hl. unfold main.
  rewrite (resolve_supported image repository tag);
    [|rewrite Hd; discriminate|now rewrite Hd].
  rewrite Hd. cbn [String.eqb Ascii.eqb Bool.eqb].
  unfold bind. rewrite get_dockerhub_auth_token_run, H1. cbn [Py.getitem].
  now rewrite Hl.
Qed.

Lemma dockerhub_token_missing_witness :
  main "nginx" tokenless start
  = (Raise KeyError, sending start (dockerhub_token_request "library/nginx")).
Proof.
  exact (dockerhub_token_missing "nginx" "library/nginx" "latest"
           [("error", JStr "denied")] tokenless start
           eq_refl eq_refl eq_refl eq_refl).
Defined.







Lemma strings_type_error (l : list json) :
  (exists v, In v l /\ forall s, v <> JStr s) -> strings l = Raise TypeError.
Proof.
  intros (v & Hin & Hv). induction l as [|x l IH]; [destruct Hin|].
  destruct Hin as [->|Hin].
  - destruct v; try reflexivity. now destruct (Hv s).
  - destruct x; try reflexivity. simpl. now rewrite (IH Hin).
Qed.

(** Architectures that are not strings end the reporter with an uncaught
    [TypeError].  A list or dict among them cannot be hashed, and nothing
    is printed.  Otherwise, when a required architecture is missing, the
    line of the missing ones is already on standard output when joining
    the available ones fails. *)
Theorem report_type_errors (image registry : string) (manifest : json)
    (architectures : list json) (w : world) (st : state) :
  architectures <> [] ->
  (forallb Py.hashable architectures = false ->
   report image registry manifest architectures w st = (Raise TypeError, st)) /\
  (forallb Py.hashable architectures = true ->
   missing_targets architectures <> [] ->
   (exists v, In v architectures /\ forall s, v <> JStr s) ->
   report image registry manifest architectures w st
   = (Raise TypeError,
      State (sent st)
            (printed st ++
             [(Stdout, MissingArchitectures image (registry_label registry)
                         (missing_targets architectures))]))).
Proof.
  intros Hne. unfold report.
  destruct architectures as [|a rest]; [congruence|]. split.
  - now intros ->.
  - intros -> Hm Hv.
    destruct (missing_targets (a :: rest)) as [|m ms]; [congruence|].
    unfold bind, print, lift. now rewrite (strings_type_error _ Hv).
Qed.

Lemma report_type_errors_witness :
  report "nginx" "dockerhub" JNull [JNum 64] offline start
  = (Raise TypeError,
     State [] [(Stdout, MissingArchitectures "nginx" "DockerHub" ["amd64"; "arm64"])]).
Proof.
  refine (proj2 (report_type_errors "nginx" "dockerhub" JNull [JNum 64] offline start _)
                eq_refl _ _).
  - discriminate.
  - discriminate.
  - exists (JNum 64). split; [now left|discriminate].
Defined.

End RunTraces.
